(** * bgp-fsm: UPDATE path-attribute operations and the IPv4 RIB

    A shallow embedding of [protocol/bgp-update-message.cc] and
    [src/bgp-rib4.cc].  Unsigned machine integers are [Z]; where the code
    narrows or wraps one, the reduction is written out.  A method that
    mutates its object and returns [bool] becomes a function returning the
    flag together with the object after the call. *)

From Stdlib Require Import ZArith List Bool Lia.
Import ListNotations.
Open Scope Z_scope.

(** ** Path attributes (the data model of bgp-path-attrib.h) *)

Module Attr.

(** Attribute type codes. *)
Definition ORIGIN : Z := 1.
Definition AS_PATH : Z := 2.
Definition NEXT_HOP : Z := 3.
Definition MULTI_EXIT_DISC : Z := 4.
Definition LOCAL_PREF : Z := 5.
Definition ATOMIC_AGGREGATE : Z := 6.
Definition AGGREGATOR : Z := 7.
Definition COMMUNITY : Z := 8.
Definition AS4_PATH : Z := 17.
Definition AS4_AGGREGATOR : Z := 18.

(** The reserved two-byte ASN standing for any ASN that needs four bytes. *)
Definition AS_TRANS : Z := 23456.

Inductive BgpAsPathSegmentType : Type := AS_SET | AS_SEQUENCE.

Definition seg_type_eqb (a b : BgpAsPathSegmentType) : bool :=
  match a, b with
  | AS_SET, AS_SET | AS_SEQUENCE, AS_SEQUENCE => true
  | _, _ => false
  end.

(** [BgpAsPathSegment], with its two subclasses [BgpAsPathSegment2b] and
    [BgpAsPathSegment4b] told apart by [is_4b]. *)
Record BgpAsPathSegment : Type := mkSeg {
  is_4b : bool;
  type : BgpAsPathSegmentType;
  value : list Z
}.

(** [BgpPathAttrib] and its subclasses as one tagged sum; the dynamic casts
    of the source are matches on the constructor.  The header flags are
    neither read nor written by the operations embedded below. *)
Inductive BgpPathAttrib : Type :=
| Origin (origin : Z)
| AsPath (path_is_4b : bool) (as_paths : list BgpAsPathSegment)
| Nexthop (next_hop : Z)
| Med (med : Z)
| LocalPref (local_pref : Z)
| AtomicAggregate
| Aggregator (asn : Z) (addr : Z)
| Community (communities : list Z)
| As4Path (as4_paths : list BgpAsPathSegment)
| As4Aggregator (asn4 : Z) (addr : Z).

Definition type_code (a : BgpPathAttrib) : Z :=
  match a with
  | Origin _ => ORIGIN
  | AsPath _ _ => AS_PATH
  | Nexthop _ => NEXT_HOP
  | Med _ => MULTI_EXIT_DISC
  | LocalPref _ => LOCAL_PREF
  | AtomicAggregate => ATOMIC_AGGREGATE
  | Aggregator _ _ => AGGREGATOR
  | Community _ => COMMUNITY
  | As4Path _ => AS4_PATH
  | As4Aggregator _ _ => AS4_AGGREGATOR
  end.


(** A value narrowed to [uint16_t]. *)
Definition uint16 (z : Z) : Z := z mod 65536.

(** [asn >= 0xffff ? 23456 : asn], stored in a [uint16_t]. *)
Definition to_2b (asn : Z) : Z :=
  if 65535 <=? asn then AS_TRANS else uint16 asn.

(** Modelled from the spec: the segment's own [prepend]
    ([BgpAsPathSegment2b::prepend] in bgp-path-attrib.cc, which is not among
    the sources).  Section 4.2 has prepending push the ASN at the front of
    the segment and lets a segment grow only while its length is below 255;
    the call is refused on a segment that is full. *)
Definition seg_prepend (a : Z) (s : BgpAsPathSegment) : option BgpAsPathSegment :=
  if (length (value s) <? 255)%nat
  then Some (mkSeg (is_4b s) (type s) (a :: value s))
  else None.

(** Modelled from the spec: prepending into a segment list
    ([BgpPathAttribAsPath::prepend] and [BgpPathAttribAs4Path::prepend] of
    bgp-path-attrib.cc).  Section 4.2: if the leading segment is AS_SEQUENCE
    and its length is below 255 the ASN is pushed at its front; otherwise a
    new leading AS_SEQUENCE segment carrying the ASN is inserted.  [four] is
    the width of the attribute, given to a segment it creates. *)
Definition prepend_segs (four : bool) (a : Z) (segs : list BgpAsPathSegment)
  : list BgpAsPathSegment :=
  match segs with
  | s :: rest =>
      if seg_type_eqb (type s) AS_SEQUENCE && (length (value s) <? 255)%nat
      then mkSeg (is_4b s) (type s) (a :: value s) :: rest
      else mkSeg four AS_SEQUENCE [a] :: segs
  | [] => [mkSeg four AS_SEQUENCE [a]]
  end.

(** [path.prepend(asn)] on an AS_PATH or AS4_PATH attribute: the flag it
    returns and the attribute afterwards.  By the text above it has no
    refusing case. *)
Definition attr_prepend (a : Z) (p : BgpPathAttrib) : bool * BgpPathAttrib :=
  match p with
  | AsPath b segs => (true, AsPath b (prepend_segs b a segs))
  | As4Path segs => (true, As4Path (prepend_segs true a segs))
  | _ => (false, p)
  end.


(** Modelled from the spec: [asPathSegsTo4b()] without an AS4_PATH.  Section
    4.2, step 3: the segment ASNs are reinterpreted as four-byte values, no
    placeholder is substituted. *)
Definition segs_to_4b (segs : list BgpAsPathSegment) : list BgpAsPathSegment :=
  map (fun s => mkSeg true (type s) (value s)) segs.

End Attr.

(** ** The UPDATE message (bgp-update-message.cc) *)

Module Update.
Import Attr.

Record BgpUpdateMessage : Type := mkMsg {
  use_4b_asn : bool;
  path_attribute : list BgpPathAttrib
}.

Definition set_attribs (m : BgpUpdateMessage) (l : list BgpPathAttrib) : BgpUpdateMessage :=
  {| use_4b_asn := use_4b_asn m; path_attribute := l |}.

(** [getAttrib]: the first attribute carrying the type code; the source
    throws when there is none. *)
Fixpoint find_attrib (t : Z) (l : list BgpPathAttrib) : option BgpPathAttrib :=
  match l with
  | [] => None
  | a :: l' => if type_code a =? t then Some a else find_attrib t l'
  end.

Definition getAttrib (t : Z) (m : BgpUpdateMessage) : option BgpPathAttrib :=
  find_attrib t (path_attribute m).

Fixpoint has_attrib (t : Z) (l : list BgpPathAttrib) : bool :=
  match l with
  | [] => false
  | a :: l' => if type_code a =? t then true else has_attrib t l'
  end.

Definition hasAttrib (t : Z) (m : BgpUpdateMessage) : bool :=
  has_attrib t (path_attribute m).

Definition addAttrib (a : BgpPathAttrib) (m : BgpUpdateMessage) : bool * BgpUpdateMessage :=
  if hasAttrib (type_code a) m then (false, m)
  else (true, set_attribs m (path_attribute m ++ [a])).

Definition setAttribs (attrs : list BgpPathAttrib) (m : BgpUpdateMessage) : bool * BgpUpdateMessage :=
  (true, set_attribs m attrs).

(** [dropAttrib] erases the first attribute of the type and stops. *)
Fixpoint drop_first (t : Z) (l : list BgpPathAttrib) : option (list BgpPathAttrib) :=
  match l with
  | [] => None
  | a :: l' =>
      if type_code a =? t then Some l'
      else match drop_first t l' with
           | Some r => Some (a :: r)
           | None => None
           end
  end.

Definition dropAttrib (t : Z) (m : BgpUpdateMessage) : bool * BgpUpdateMessage :=
  match drop_first t (path_attribute m) with
  | Some l => (true, set_attribs m l)
  | None => (false, m)
  end.

Definition updateAttribute (a : BgpPathAttrib) (m : BgpUpdateMessage) : bool * BgpUpdateMessage :=
  addAttrib a (snd (dropAttrib (type_code a) m)).


(** Assignment through the reference [getAttrib(t)] returned: the first
    attribute of type [t] becomes [b]. *)
Fixpoint set_first (t : Z) (b : BgpPathAttrib) (l : list BgpPathAttrib) : list BgpPathAttrib :=
  match l with
  | [] => []
  | a :: l' => if type_code a =? t then b :: l' else a :: set_first t b l'
  end.

Definition setAttrib (t : Z) (b : BgpPathAttrib) (m : BgpUpdateMessage) : BgpUpdateMessage :=
  set_attribs m (set_first t b (path_attribute m)).

(** [prepend]: the four-byte branch first, then the two-byte branch, which
    hands [prep_asn] to the AS_PATH and, when there is one, to the AS4_PATH
    as well. *)
Definition prepend (asn : Z) (m : BgpUpdateMessage) : bool * BgpUpdateMessage :=
  if use_4b_asn m then
    if hasAttrib AS4_PATH m then (false, m)
    else if negb (hasAttrib AS_PATH m) then
      let path := snd (attr_prepend asn (AsPath (use_4b_asn m) [])) in
      (true, set_attribs m (path_attribute m ++ [path]))
    else
      match getAttrib AS_PATH m with
      | Some (AsPath p4 segs as path) =>
          if negb p4 then (false, m)
          else let (ok, path') := attr_prepend asn path in
               (ok, setAttrib AS_PATH path' m)
      | _ => (false, m)
      end
  else
    let prep_asn := to_2b asn in
    let after_path :=
      if negb (hasAttrib AS_PATH m) then
        let path := snd (attr_prepend prep_asn (AsPath (use_4b_asn m) [])) in
        (true, set_attribs m (path_attribute m ++ [path]))
      else
        match getAttrib AS_PATH m with
        | Some (AsPath p4 segs as path) =>
            if p4 then (false, m)
            else let (ok, path') := attr_prepend prep_asn path in
                 (ok, setAttrib AS_PATH path' m)
        | _ => (false, m)
        end in
    let (ok, m1) := after_path in
    if negb ok then (false, m1)
    else if hasAttrib AS4_PATH m1 then
      match getAttrib AS4_PATH m1 with
      | Some (As4Path _ as path4) =>
          let (ok4, path4') := attr_prepend prep_asn path4 in
          (ok4, setAttrib AS4_PATH path4' m1)
      | _ => (false, m1)
      end
    else (true, m1).

(** Modelled from the spec: [asPathSegsTo4b()], the message method that
    [restoreAsPath] ends in when there is no AS4_PATH (defined outside the
    sources).  It makes the AS_PATH four-byte by [segs_to_4b]. *)
Definition asPathSegsTo4b (m : BgpUpdateMessage) : bool * BgpUpdateMessage :=
  match getAttrib AS_PATH m with
  | Some (AsPath _ segs) => (true, setAttrib AS_PATH (AsPath true (segs_to_4b segs)) m)
  | _ => (false, m)
  end.

Section Overlay.

(** [asPathSegsTo4b(full_as_path)] is defined outside the sources, and the
    spec leaves open how the ASNs collected from AS4_PATH are laid over the
    AS_PATH (section 4.2, step 4, and section 9: which ASN replaces which
    placeholder, and what happens when their numbers differ).  The overlay
    is therefore a parameter: from the collected ASNs and the two-byte
    segments of AS_PATH it gives the segments of the restored path. *)
Variable overlay : list Z -> list BgpAsPathSegment -> list BgpAsPathSegment.

(** Modelled from the spec: [asPathSegsTo4b(full_as_path)], the message
    method that [restoreAsPath] ends in with the ASNs collected from
    AS4_PATH (defined outside the sources).  Section 4.2, steps 4 and 5:
    the AS_PATH becomes the four-byte path [overlay] makes of it and the
    AS4_PATH is dropped. *)
Definition asPathSegsTo4b_with (full : list Z) (m : BgpUpdateMessage)
  : bool * BgpUpdateMessage :=
  match getAttrib AS_PATH m with
  | Some (AsPath _ segs) =>
      (true, snd (dropAttrib AS4_PATH
                    (setAttrib AS_PATH (AsPath true (overlay full segs)) m)))
  | _ => (false, m)
  end.

(** The loop of [restoreAsPath] over [as4_path.as4_paths]: [None] when a
    two-byte segment is met. *)
Fixpoint collect_as4 (segs : list BgpAsPathSegment) (full_as_path : list Z)
  : option (list Z) :=
  match segs with
  | [] => Some full_as_path
  | seg :: rest =>
      if negb (is_4b seg) then None
      else if seg_type_eqb (type seg) AS_SEQUENCE
           then collect_as4 rest (full_as_path ++ value seg)
           else collect_as4 rest full_as_path
  end.

Definition restoreAsPath (m : BgpUpdateMessage) : bool * BgpUpdateMessage :=
  if negb (hasAttrib AS_PATH m) then (true, m)
  else
    match getAttrib AS_PATH m with
    | Some (AsPath p4 _) =>
        if p4 then (false, m)
        else if negb (hasAttrib AS4_PATH m) then asPathSegsTo4b m
        else
          match getAttrib AS4_PATH m with
          | Some (As4Path as4_paths) =>
              match collect_as4 as4_paths [] with
              | Some full_as_path => asPathSegsTo4b_with full_as_path m
              | None => (false, m)
              end
          | _ => (false, m)
          end
    | _ => (false, m)
    end.

End Overlay.

(** The inner loop of [downgradeAsPath]: every ASN of the four-byte segment
    goes through [new_seg.prepend]. *)
Fixpoint downgrade_seg (vals : list Z) (new_seg : BgpAsPathSegment)
  : option BgpAsPathSegment :=
  match vals with
  | [] => Some new_seg
  | asn :: rest =>
      match seg_prepend (to_2b asn) new_seg with
      | Some s => downgrade_seg rest s
      | None => None
      end
  end.

(** The outer loop: the two-byte segments and the AS4_PATH built so far. *)
Fixpoint downgrade_segs (segs new_segs as4_paths : list BgpAsPathSegment)
  : option (list BgpAsPathSegment * list BgpAsPathSegment) :=
  match segs with
  | [] => Some (new_segs, as4_paths)
  | seg :: rest =>
      if negb (is_4b seg) then None
      else match downgrade_seg (value seg) (mkSeg false (type seg) []) with
           | Some new_seg => downgrade_segs rest (new_segs ++ [new_seg]) (as4_paths ++ [seg])
           | None => None
           end
  end.

(** [path] is taken to denote the message's AS_PATH attribute also after
    [updateAttribute(path4)] has changed the vector; only [as_paths] of it is
    assigned, so the attribute keeps its [is_4b]. *)
Definition downgradeAsPath (m : BgpUpdateMessage) : bool * BgpUpdateMessage :=
  if negb (hasAttrib AS_PATH m) then (true, m)
  else
    match getAttrib AS_PATH m with
    | Some (AsPath p4 as_paths) =>
        if negb p4 then (false, m)
        else
          match downgrade_segs as_paths [] [] with
          | Some (new_segs, as4_paths) =>
              let m1 := snd (updateAttribute (As4Path as4_paths) m) in
              (true, setAttrib AS_PATH (AsPath p4 new_segs) m1)
          | None => (false, m)
          end
    | _ => (false, m)
    end.

(** *** Vocabulary of the statements *)



(** The two-byte segment [downgradeAsPath] builds from a four-byte one:
    every ASN went through [prepend], so the last one read is in front. *)
Definition down_seg (s : BgpAsPathSegment) : BgpAsPathSegment :=
  mkSeg false (type s) (rev (map to_2b (value s))).

(** *** Sample messages *)

Definition seq2 (l : list Z) : BgpAsPathSegment := mkSeg false AS_SEQUENCE l.

Definition seq4 (l : list Z) : BgpAsPathSegment := mkSeg true AS_SEQUENCE l.

(** A two-byte message that carries an AS4_PATH. *)
Definition msg_2b_as4 : BgpUpdateMessage :=
  mkMsg false [AsPath false [seq2 [100]]; As4Path [seq4 [200]]].

(** Four-byte messages with the paths [1 2 3] and [65536 65537]. *)
Definition msg_4b_small : BgpUpdateMessage :=
  mkMsg true [Origin 0; AsPath true [seq4 [1; 2; 3]]].

Definition msg_4b_large : BgpUpdateMessage :=
  mkMsg true [Origin 0; AsPath true [seq4 [65536; 65537]]].




End Update.

(** ** The IPv4 routing information base (bgp-rib4.cc) *)

Module Rib.
Import Attr.

(** [Prefix4], read through its two accessors. *)
Record Prefix4 : Type := mkPrefix4 {
  getPrefix : Z;
  getLength : Z
}.

(** [operator==] on prefixes. *)
Definition Prefix4_eqb (a b : Prefix4) : bool :=
  (getPrefix a =? getPrefix b) && (getLength a =? getLength b).

Inductive BgpRouteSource : Type := SRC_EBGP | SRC_IBGP.

Record BgpRib4Entry : Type := mkEntry {
  route : Prefix4;
  src_router_id : Z;
  attribs : list BgpPathAttrib;
  update_id : Z;
  weight : Z;
  src : BgpRouteSource;
  ibgp_peer_asn : Z
}.

(** The multimap [rib4_t] in its iteration order.  Every element is stored
    under the key made from its own [route], so the equal range of a prefix,
    filtered by [it->second.route == prefix] as every loop of the source
    does, is the sublist of the entries of that prefix. *)
Definition rib4_t : Type := list BgpRib4Entry.

(** The object state: the map and the [update_id] counter. *)
Record BgpRib4 : Type := mkRib {
  rib : rib4_t;
  rib_update_id : Z
}.

Definition set_rib (r : BgpRib4) (l : rib4_t) : BgpRib4 :=
  {| rib := l; rib_update_id := rib_update_id r |}.

(** [rib.erase(it)] for the iterator at position [i]. *)
Definition erase_at (i : nat) (l : rib4_t) : rib4_t :=
  firstn i l ++ skipn (S i) l.

Section Selection.

(** [selectEntry] is inherited from [BgpRib] (bgp-rib.h, not among the
    sources).  It is given two entries and returns a pointer to one of them;
    the parameter tells which: [true] for the first. *)
Variable selectEntry : BgpRib4Entry -> BgpRib4Entry -> bool.

(** Where [rib.insert] places a new element is left to the container; the
    parameter gives the position in the iteration order.  An insert may
    also rehash the table, which can permute elements of different keys and
    keeps the relative order of elements of one key; the list is to be read
    up to such permutations, and statements about the order of entries
    across an insert are made inside one (prefix, source) pair or one
    prefix only. *)
Variable slot : rib4_t -> BgpRib4Entry -> nat.

Definition rib_insert (l : rib4_t) (e : BgpRib4Entry) : rib4_t :=
  firstn (slot l e) l ++ e :: skipn (slot l e) l.

(** The loop of [find_best], [best] being the iterator kept so far. *)
Fixpoint find_best_from (prefix : Prefix4) (best : option BgpRib4Entry) (l : rib4_t)
  : option BgpRib4Entry :=
  match l with
  | [] => best
  | it :: l' =>
      if Prefix4_eqb (route it) prefix then
        find_best_from prefix
          (Some (match best with
                 | None => it
                 | Some b => if selectEntry b it then b else it
                 end)) l'
      else find_best_from prefix best l'
  end.

Definition find_best (prefix : Prefix4) (l : rib4_t) : option BgpRib4Entry :=
  find_best_from prefix None l.

Fixpoint find_entry (prefix : Prefix4) (s : Z) (l : rib4_t) : option BgpRib4Entry :=
  match l with
  | [] => None
  | it :: l' =>
      if Prefix4_eqb (route it) prefix && (src_router_id it =? s) then Some it
      else find_entry prefix s l'
  end.

(** The erase loop of [insertPriv]: every entry of the prefix from the same
    peer goes. *)
Definition erase_same_peer (prefix : Prefix4) (s : Z) (l : rib4_t) : rib4_t :=
  filter (fun it => negb (Prefix4_eqb (route it) prefix && (src_router_id it =? s))) l.

(** [insertPriv]: the entry to announce, if any, and the RIB afterwards.
    [find_best] after the insert always finds an entry; its [None] branch
    stands for the source's internal-error return. *)
Definition insertPriv (s : Z) (prefix : Prefix4) (attrib : list BgpPathAttrib)
    (w : Z) (ibgp_asn : Z) (r : BgpRib4) : option BgpRib4Entry * BgpRib4 :=
  let new_entry :=
    mkEntry prefix s attrib (rib_update_id r) w
            (if 0 <? ibgp_asn then SRC_IBGP else SRC_EBGP) ibgp_asn in
  match find_best prefix (rib r) with
  | Some best_before_insert =>
      let old_best_uid := update_id best_before_insert in
      let l := rib_insert (erase_same_peer prefix s (rib r)) new_entry in
      match find_best prefix l with
      | Some best_after_insert =>
          let best_changed := negb (update_id best_after_insert =? old_best_uid) in
          (if best_changed then Some best_after_insert else None, set_rib r l)
      | None => (None, set_rib r l)
      end
  | None => (Some new_entry, set_rib r (rib_insert (rib r) new_entry))
  end.

(** The learned-route [insert]: the 64-bit counter is advanced first. *)
Definition insert (s : Z) (prefix : Prefix4) (attrib : list BgpPathAttrib)
    (w : Z) (ibgp_asn : Z) (r : BgpRib4) : option BgpRib4Entry * BgpRib4 :=
  insertPriv s prefix attrib w ibgp_asn
    {| rib := rib r; rib_update_id := (rib_update_id r + 1) mod 2 ^ 64 |}.

(** The loop of [withdraw] from position [i] on: [replacement] is the entry
    selected among the other sources so far, [to_remove] the position of the
    last entry of the withdrawing source met so far. *)
Fixpoint withdraw_scan (s : Z) (prefix : Prefix4) (l : rib4_t) (i : nat)
    (replacement : option BgpRib4Entry) (to_remove : option nat)
  : option BgpRib4Entry * option nat :=
  match l with
  | [] => (replacement, to_remove)
  | it :: l' =>
      if Prefix4_eqb (route it) prefix then
        if src_router_id it =? s then
          withdraw_scan s prefix l' (S i) replacement (Some i)
        else
          withdraw_scan s prefix l' (S i)
            (Some (match replacement with
                   | None => it
                   | Some rep => if selectEntry rep it then rep else it
                   end)) to_remove
      else withdraw_scan s prefix l' (S i) replacement to_remove
  end.

(** [withdraw]: the returned pair and the RIB afterwards.  The first
    component is the source's [reachabled]. *)
Definition withdraw (s : Z) (prefix : Prefix4) (r : BgpRib4)
  : (bool * option BgpRib4Entry) * BgpRib4 :=
  match withdraw_scan s prefix (rib r) 0 None None with
  | (_, None) => ((false, None), r)
  | (Some replacement, Some i) =>
      match nth_error (rib r) i with
      | Some removed =>
          (* candidate == &(to_remove->second) *)
          let candidate_is_removed := negb (selectEntry replacement removed) in
          ((true, if candidate_is_removed then Some replacement else None),
           set_rib r (erase_at i (rib r)))
      | None => ((false, None), r)
      end
  | (None, Some _) =>
      (* reachabled = false; this branch erases nothing *)
      ((false, None), r)
  end.

(** [discard]: the whole body is commented out in the source, so the call
    executes no statement: the RIB is left as it is and no value is
    produced. *)
Definition discard (s : Z) (r : BgpRib4) : BgpRib4 := r.

End Selection.

(** *** An instance of the selection *)

Fixpoint first_local_pref (l : list BgpPathAttrib) : option Z :=
  match l with
  | [] => None
  | LocalPref v :: _ => Some v
  | _ :: l' => first_local_pref l'
  end.

Fixpoint first_origin (l : list BgpPathAttrib) : option Z :=
  match l with
  | [] => None
  | Origin v :: _ => Some v
  | _ :: l' => first_origin l'
  end.

Fixpoint first_med (l : list BgpPathAttrib) : option Z :=
  match l with
  | [] => None
  | Med v :: _ => Some v
  | _ :: l' => first_med l'
  end.

Fixpoint first_as_path (l : list BgpPathAttrib) : list BgpAsPathSegment :=
  match l with
  | [] => []
  | AsPath _ segs :: _ => segs
  | _ :: l' => first_as_path l'
  end.

Definition local_pref_of (e : BgpRib4Entry) : Z :=
  match src e, first_local_pref (attribs e) with
  | SRC_IBGP, Some v => v
  | _, _ => 100
  end.

(** An AS_SET counts as one hop, an AS_SEQUENCE as its length. *)
Definition as_path_length (e : BgpRib4Entry) : Z :=
  fold_right
    (fun s n => match type s with
                | AS_SET => 1 + n
                | AS_SEQUENCE => Z.of_nat (length (value s)) + n
                end) 0 (first_as_path (attribs e)).

Definition neighbor_as (e : BgpRib4Entry) : option Z :=
  match first_as_path (attribs e) with
  | s :: _ => match value s with a :: _ => Some a | [] => None end
  | [] => None
  end.

Definition same_neighbor (a b : BgpRib4Entry) : bool :=
  match neighbor_as a, neighbor_as b with
  | Some x, Some y => x =? y
  | _, _ => false
  end.

Definition origin_of (e : BgpRib4Entry) : Z :=
  match first_origin (attribs e) with Some v => v | None => 0 end.

Definition med_of (e : BgpRib4Entry) : Z :=
  match first_med (attribs e) with Some v => v | None => 0 end.

(** One step of the order: the entry with the larger key wins, equal keys
    pass the decision on. *)
Definition higher (x y : Z) (otherwise : bool) : bool :=
  if y <? x then true else if x <? y then false else otherwise.

Definition lower (x y : Z) (otherwise : bool) : bool := higher y x otherwise.

Definition rank_local (e : BgpRib4Entry) : Z :=
  if src_router_id e =? 0 then 1 else 0.

Definition rank_ebgp (e : BgpRib4Entry) : Z :=
  match src e with SRC_EBGP => 1 | SRC_IBGP => 0 end.

(** Modelled from the spec: [selectEntry] of bgp-rib.h, which is not among
    the sources.  Section 4.4 prefers, in order: the higher weight; the
    locally originated entry (source 0) when exactly one is; the higher
    LOCAL_PREF (of IBGP entries, 100 when absent); the shorter AS_PATH; the
    lower ORIGIN; the lower MED when both paths begin with the same
    neighbour AS; EBGP over IBGP; the lower source router id.  [true] picks
    the first entry, which also keeps a full tie. *)
Definition selectEntry (a b : BgpRib4Entry) : bool :=
  higher (weight a) (weight b)
    (higher (rank_local a) (rank_local b)
       (higher (local_pref_of a) (local_pref_of b)
          (lower (as_path_length a) (as_path_length b)
             (lower (origin_of a) (origin_of b)
                ((if same_neighbor a b then lower (med_of a) (med_of b) else (fun k => k))
                   (higher (rank_ebgp a) (rank_ebgp b)
                      (lower (src_router_id a) (src_router_id b) true))))))).

(** One placement a container may choose: the front. *)
Definition slot_front (l : rib4_t) (e : BgpRib4Entry) : nat := 0%nat.

(** *** Vocabulary of the statements *)

(** The entry is the one [withdraw s p] looks for. *)
Definition key_match (s : Z) (p : Prefix4) (e : BgpRib4Entry) : bool :=
  Prefix4_eqb (route e) p && (src_router_id e =? s).

(** The entry is of prefix [p] and comes from another source than [s]. *)
Definition other_source (s : Z) (p : Prefix4) (e : BgpRib4Entry) : bool :=
  Prefix4_eqb (route e) p && negb (src_router_id e =? s).

(** The entries that do not come from [s]. *)
Definition others (s : Z) (l : rib4_t) : rib4_t :=
  filter (fun x => negb (src_router_id x =? s)) l.

(** *** Sample states: 10.0.0.0/8 learned from peers 1 and 2 *)

Definition net10 : Prefix4 := mkPrefix4 167772160 8.

Definition from_peer1 : BgpRib4Entry := mkEntry net10 1 [] 1 10 SRC_EBGP 0.

Definition from_peer2 : BgpRib4Entry := mkEntry net10 2 [] 2 0 SRC_EBGP 0.

Definition rib_one : BgpRib4 := mkRib [from_peer1] 3.

Definition rib_two : BgpRib4 := mkRib [from_peer1; from_peer2] 3.

End Rib.

(** ** Further vocabulary for the UPDATE message *)

Module UpdateExt.
Import Attr Update.

(** How many attributes of the list carry the type code. *)
Fixpoint count_code (t : Z) (l : list BgpPathAttrib) : nat :=
  match l with
  | [] => 0
  | a :: l' => ((if (type_code a =? t)%Z then 1 else 0) + count_code t l')%nat
  end.




(** A message with ORIGIN, NEXT_HOP and a four-byte AS_PATH [7 8]. *)
Definition msg_full : BgpUpdateMessage :=
  mkMsg true [Origin 0; Nexthop 167772161; AsPath true [seq4 [7; 8]]].

End UpdateExt.

(** ** The rest of bgp-rib4.cc: constructors, next hop, local routes *)

Module RibExt.
Import Attr Rib.

(** [BgpRib4Entry::getNexthop]: the next hop of the first NEXT_HOP
    attribute; the source throws when there is none. *)
Fixpoint first_nexthop (l : list BgpPathAttrib) : option Z :=
  match l with
  | [] => None
  | attr :: l' =>
      if type_code attr =? NEXT_HOP then
        match attr with
        | Nexthop nh => Some nh
        | _ => None
        end
      else first_nexthop l'
  end.

Definition getNexthop (e : BgpRib4Entry) : option Z := first_nexthop (attribs e).

(** The inner loop of the local [insert]: some NEXT_HOP attribute of the
    entry carries [nexthop]. *)
Definition has_nexthop (nexthop : Z) (l : list BgpPathAttrib) : bool :=
  existsb (fun attr => match attr with
                       | Nexthop nh => nh =? nexthop
                       | _ => false
                       end) l.

(** A local entry (source 0) one of whose NEXT_HOP attributes is [nexthop]. *)
Definition local_with_nexthop (nexthop : Z) (x : BgpRib4Entry) : bool :=
  (src_router_id x =? 0) && has_nexthop nexthop (attribs x).

(** The pairs (prefix, source) of the entries, in map order. *)
Definition keys (l : rib4_t) : list (Prefix4 * Z) :=
  map (fun e => (route e, src_router_id e)) l.

(** The entry [insertPriv] builds when the counter stands at [uid]. *)
Definition learned_entry (s : Z) (p : Prefix4) (attrib : list BgpPathAttrib)
    (w ibgp_asn uid : Z) : BgpRib4Entry :=
  mkEntry p s attrib uid w (if 0 <? ibgp_asn then SRC_IBGP else SRC_EBGP) ibgp_asn.

Section Local.

Variable slot : rib4_t -> BgpRib4Entry -> nat.

(** The ORIGIN code [IGP] (an enumerator of bgp-path-attrib.h) and the
    values the entry constructor leaves in [src] and [ibgp_peer_asn] (set by
    the base class of bgp-rib.h) are constants of headers outside the
    sources. *)
Variable IGP : Z.
Variable default_src : BgpRouteSource.
Variable default_ibgp_peer_asn : Z.

(** The attributes both local inserts build: ORIGIN, NEXT_HOP and an empty
    four-byte AS_PATH, in this order. *)
Definition local_attribs (nexthop : Z) : list BgpPathAttrib :=
  [Origin IGP; Nexthop nexthop; AsPath true []].

Definition local_entry (prefix : Prefix4) (nexthop uid w : Z) : BgpRib4Entry :=
  mkEntry prefix 0 (local_attribs nexthop) uid w default_src default_ibgp_peer_asn.

(** The loop of the one-route local [insert] over the whole map: [None]
    when a local entry of the route exists, else the [use_update_id] the
    loop ends with. *)
Fixpoint insert_local_scan (prefix : Prefix4) (nexthop : Z) (l : rib4_t)
    (use_update_id : Z) : option Z :=
  match l with
  | [] => Some use_update_id
  | entry :: l' =>
      if (src_router_id entry =? 0) && Prefix4_eqb (route entry) prefix then None
      else if src_router_id entry =? 0 then
        insert_local_scan prefix nexthop l'
          (if has_nexthop nexthop (attribs entry) then update_id entry
           else use_update_id)
      else insert_local_scan prefix nexthop l' use_update_id
  end.

(** [insert(logger, route, nexthop, weight)]: the inserted entry, or nil
    when the route exists, and the RIB afterwards. *)
Definition insert_local (prefix : Prefix4) (nexthop w : Z) (r : BgpRib4)
  : option BgpRib4Entry * BgpRib4 :=
  match insert_local_scan prefix nexthop (rib r) (rib_update_id r) with
  | None => (None, r)
  | Some use_update_id =>
      let new_entry := local_entry prefix nexthop use_update_id w in
      (Some new_entry,
       {| rib := rib_insert slot (rib r) new_entry;
          rib_update_id :=
            if use_update_id =? rib_update_id r
            then (rib_update_id r + 1) mod 2 ^ 64
            else rib_update_id r |})
  end.

(** The loop of [insert(logger, routes, nexthop, weight)]: the map and the
    vector [inserted] after the remaining routes. *)
Fixpoint insert_local_loop (routes : list Prefix4) (nexthop w uid : Z)
    (l : rib4_t) (inserted : list BgpRib4Entry) : rib4_t * list BgpRib4Entry :=
  match routes with
  | [] => (l, inserted)
  | prefix :: rest =>
      match find_entry prefix 0 l with
      | Some _ => insert_local_loop rest nexthop w uid l inserted
      | None =>
          let new_entry := local_entry prefix nexthop uid w in
          insert_local_loop rest nexthop w uid
            (rib_insert slot l new_entry) (inserted ++ [new_entry])
      end
  end.

(** [insert(logger, routes, nexthop, weight)]: the inserted entries and the
    RIB afterwards; the counter advances once, after the loop. *)
Definition insert_local_routes (routes : list Prefix4) (nexthop w : Z) (r : BgpRib4)
  : list BgpRib4Entry * BgpRib4 :=
  let (l, inserted) :=
    insert_local_loop routes nexthop w (rib_update_id r) (rib r) [] in
  (inserted, {| rib := l; rib_update_id := (rib_update_id r + 1) mod 2 ^ 64 |}).

End Local.

(** *** Sample data *)

Definition net192 : Prefix4 := mkPrefix4 3221225984 24.

Definition net172 : Prefix4 := mkPrefix4 2886729728 12.

End RibExt.

Module UpdateFacts.
Import Attr Update.

Lemma has_attrib_In (t : Z) (l : list BgpPathAttrib) :
  has_attrib t l = true <-> In t (map type_code l).
Proof.
  induction l as [|a l IH]; simpl.
  - split; [discriminate | intros []].
  - destruct (Z.eqb_spec (type_code a) t) as [E|E].
    + split; auto.
    + rewrite IH. split; [auto | intros [H|H]; [contradiction | exact H]].
Qed.

Lemma find_attrib_none (t : Z) (l : list BgpPathAttrib) :
  has_attrib t l = false <-> find_attrib t l = None.
Proof.
  induction l as [|a l IH]; simpl; [tauto|].
  destruct (type_code a =? t); [split; discriminate | exact IH].
Qed.

Lemma find_attrib_some (t : Z) (l : list BgpPathAttrib) :
  has_attrib t l = true -> exists a, find_attrib t l = Some a.
Proof.
  intros H. destruct (find_attrib t l) eqn:E; [eauto|].
  apply find_attrib_none in E. congruence.
Qed.

Lemma find_attrib_has (t : Z) (l : list BgpPathAttrib) (a : BgpPathAttrib) :
  find_attrib t l = Some a -> has_attrib t l = true.
Proof.
  intros H. destruct (has_attrib t l) eqn:E; [reflexivity|].
  apply find_attrib_none in E. congruence.
Qed.

Lemma find_attrib_code (t : Z) (l : list BgpPathAttrib) (a : BgpPathAttrib) :
  find_attrib t l = Some a -> type_code a = t.
Proof.
  induction l as [|x l IH]; simpl; [discriminate|].
  destruct (Z.eqb_spec (type_code x) t) as [E|E]; [|exact IH].
  intros H. injection H as <-. exact E.
Qed.


Lemma code_As4Path (a : BgpPathAttrib) :
  type_code a = AS4_PATH -> exists segs, a = As4Path segs.
Proof. destruct a; simpl; try discriminate. eauto. Qed.

(** Reading back after an assignment through the reference. *)
Lemma find_set_first_same (t : Z) (b : BgpPathAttrib) (l : list BgpPathAttrib) :
  type_code b = t -> has_attrib t l = true -> find_attrib t (set_first t b l) = Some b.
Proof.
  intros Hb. induction l as [|a l IH]; simpl; [discriminate|].
  destruct (type_code a =? t) eqn:E; simpl.
  - intros _. rewrite Hb, Z.eqb_refl. reflexivity.
  - rewrite E. exact IH.
Qed.

Lemma find_set_first_other (t t' : Z) (b : BgpPathAttrib) (l : list BgpPathAttrib) :
  type_code b = t -> t' <> t -> find_attrib t' (set_first t b l) = find_attrib t' l.
Proof.
  intros Hb Ht. induction l as [|a l IH]; simpl; [reflexivity|].
  destruct (Z.eqb_spec (type_code a) t) as [E|E]; simpl.
  - rewrite Hb. destruct (Z.eqb_spec t t') as [C|_]; [congruence|].
    destruct (Z.eqb_spec (type_code a) t') as [C|_]; [congruence|]. reflexivity.
  - rewrite IH. reflexivity.
Qed.

Lemma find_attrib_app (t : Z) (l : list BgpPathAttrib) (a : BgpPathAttrib) :
  find_attrib t (l ++ [a]) =
  match find_attrib t l with
  | Some x => Some x
  | None => if type_code a =? t then Some a else None
  end.
Proof.
  induction l as [|x l IH]; simpl; [reflexivity|].
  destruct (type_code x =? t); [reflexivity | exact IH].
Qed.

Lemma has_set_first (t t' : Z) (b : BgpPathAttrib) (l : list BgpPathAttrib) :
  type_code b = t -> has_attrib t' (set_first t b l) = has_attrib t' l.
Proof.
  intros Hb. induction l as [|a l IH]; simpl; [reflexivity|].
  destruct (Z.eqb_spec (type_code a) t) as [E|E]; simpl.
  - rewrite Hb, E. reflexivity.
  - rewrite IH. reflexivity.
Qed.


(** In two-byte mode, on a message with a two-byte AS_PATH and an AS4_PATH,
    [prepend] puts the two-byte form of the ASN in front of both paths. *)
Lemma prepend_2b_paths (asn : Z) (attrs : list BgpPathAttrib)
    (segs segs4 : list BgpAsPathSegment) :
  find_attrib AS_PATH attrs = Some (AsPath false segs) ->
  find_attrib AS4_PATH attrs = Some (As4Path segs4) ->
  fst (prepend asn (mkMsg false attrs)) = true /\
  getAttrib AS_PATH (snd (prepend asn (mkMsg false attrs)))
    = Some (AsPath false (prepend_segs false (to_2b asn) segs)) /\
  getAttrib AS4_PATH (snd (prepend asn (mkMsg false attrs)))
    = Some (As4Path (prepend_segs true (to_2b asn) segs4)).
Proof.
  intros H2 H4.
  unfold prepend, hasAttrib, getAttrib, setAttrib, set_attribs; simpl.
  rewrite (find_attrib_has _ _ _ H2), H2; simpl.
  rewrite has_set_first by reflexivity.
  rewrite (find_attrib_has _ _ _ H4).
  rewrite (find_set_first_other AS_PATH AS4_PATH) by (reflexivity || discriminate).
  rewrite H4; simpl.
  split; [reflexivity|]. split.
  - rewrite (find_set_first_other AS4_PATH AS_PATH) by (reflexivity || discriminate).
    apply find_set_first_same; [reflexivity|].
    apply find_attrib_has with (a := AsPath false segs). exact H2.
  - apply find_set_first_same; [reflexivity|].
    rewrite has_set_first by reflexivity.
    apply find_attrib_has with (a := As4Path segs4). exact H4.
Qed.

(** C4, on the code: prepending 65536 in two-byte mode puts 23456 in front
    of AS_PATH, and 23456 again, not 65536, in front of AS4_PATH. *)
Theorem prepend_2b_as4_path_gets_as_trans :
  prepend 65536 msg_2b_as4 =
    (true, mkMsg false [AsPath false [seq2 [23456; 100]]; As4Path [seq4 [23456; 200]]]).
Proof. reflexivity. Qed.

Lemma has_attrib_app (t : Z) (l : list BgpPathAttrib) (a : BgpPathAttrib) :
  has_attrib t (l ++ [a]) = has_attrib t l || (type_code a =? t).
Proof.
  induction l as [|x l IH]; simpl.
  - destruct (type_code a =? t); reflexivity.
  - destruct (type_code x =? t); [reflexivity | exact IH].
Qed.

Lemma has_drop_first_other (t t' : Z) (l l' : list BgpPathAttrib) :
  t' <> t -> drop_first t l = Some l' -> has_attrib t' l' = has_attrib t' l.
Proof.
  intros Ht. revert l'. induction l as [|a l IH]; intros l'; simpl; [discriminate|].
  destruct (Z.eqb_spec (type_code a) t) as [E|E].
  - intros [= <-]. destruct (Z.eqb_spec (type_code a) t') as [C|_]; [congruence|].
    reflexivity.
  - destruct (drop_first t l) as [r|]; [|discriminate].
    intros [= <-]. simpl. rewrite (IH r eq_refl). reflexivity.
Qed.

Lemma find_drop_first_other (t t' : Z) (l l' : list BgpPathAttrib) :
  t' <> t -> drop_first t l = Some l' -> find_attrib t' l' = find_attrib t' l.
Proof.
  intros Ht. revert l'. induction l as [|a l IH]; intros l'; simpl; [discriminate|].
  destruct (Z.eqb_spec (type_code a) t) as [E|E].
  - intros [= <-]. destruct (Z.eqb_spec (type_code a) t') as [C|_]; [congruence|].
    reflexivity.
  - destruct (drop_first t l) as [r|]; [|discriminate].
    intros [= <-]. simpl. rewrite (IH r eq_refl). reflexivity.
Qed.

Lemma has_dropAttrib_other (t t' : Z) (m : BgpUpdateMessage) :
  t' <> t -> hasAttrib t' (snd (dropAttrib t m)) = hasAttrib t' m.
Proof.
  intros Ht. unfold dropAttrib, hasAttrib.
  destruct (drop_first t (path_attribute m)) as [l|] eqn:E; simpl; [|reflexivity].
  apply has_drop_first_other with (t := t); assumption.
Qed.

Lemma find_dropAttrib_other (t t' : Z) (m : BgpUpdateMessage) :
  t' <> t -> getAttrib t' (snd (dropAttrib t m)) = getAttrib t' m.
Proof.
  intros Ht. unfold dropAttrib, getAttrib.
  destruct (drop_first t (path_attribute m)) as [l|] eqn:E; simpl; [|reflexivity].
  apply find_drop_first_other with (t := t); assumption.
Qed.

Lemma has_updateAttribute_other (a : BgpPathAttrib) (t' : Z) (m : BgpUpdateMessage) :
  t' <> type_code a ->
  hasAttrib t' (snd (updateAttribute a m)) = hasAttrib t' m.
Proof.
  intros Ht. unfold updateAttribute, addAttrib.
  destruct (hasAttrib (type_code a) (snd (dropAttrib (type_code a) m))); simpl.
  - apply has_dropAttrib_other. exact Ht.
  - unfold hasAttrib at 1. simpl. rewrite has_attrib_app.
    destruct (Z.eqb_spec (type_code a) t') as [C|_]; [congruence|].
    rewrite orb_false_r. apply has_dropAttrib_other. exact Ht.
Qed.

(** *** [downgradeAsPath] *)

Lemma downgrade_seg_rev (vals : list Z) (ns : BgpAsPathSegment) :
  (length vals + length (value ns) <= 255)%nat ->
  downgrade_seg vals ns =
    Some (mkSeg (is_4b ns) (type ns) (rev (map to_2b vals) ++ value ns)).
Proof.
  revert ns. induction vals as [|a vals IH]; intros ns Hlen; simpl.
  - destruct ns; reflexivity.
  - simpl in Hlen. unfold seg_prepend.
    destruct (Nat.ltb_spec (length (value ns)) 255) as [_|C]; [|lia].
    rewrite IH by (simpl; lia). simpl.
    rewrite <- app_assoc. reflexivity.
Qed.

Lemma downgrade_segs_all (segs acc2 acc4 : list BgpAsPathSegment) :
  Forall (fun s => is_4b s = true /\ (length (value s) <= 255)%nat) segs ->
  downgrade_segs segs acc2 acc4 = Some (acc2 ++ map down_seg segs, acc4 ++ segs).
Proof.
  intros H. revert acc2 acc4. induction H as [|s segs [H4 Hlen] _ IH]; intros acc2 acc4; simpl.
  - rewrite !app_nil_r. reflexivity.
  - rewrite H4. simpl. rewrite downgrade_seg_rev by (simpl; lia). simpl.
    rewrite app_nil_r, IH, <- !app_assoc. reflexivity.
Qed.

(** What [downgradeAsPath] makes of a four-byte message without AS4_PATH:
    each segment comes out two-byte with its ASNs narrowed and in reverse
    order, the attribute stays marked four-byte, and the AS4_PATH holds the
    segments as they were. *)
Lemma downgradeAsPath_result (attrs : list BgpPathAttrib) (use4 : bool)
    (segs : list BgpAsPathSegment) :
  find_attrib AS_PATH attrs = Some (AsPath true segs) ->
  has_attrib AS4_PATH attrs = false ->
  Forall (fun s => is_4b s = true /\ (length (value s) <= 255)%nat) segs ->
  downgradeAsPath (mkMsg use4 attrs) =
    (true, mkMsg use4 (set_first AS_PATH (AsPath true (map down_seg segs))
                         (attrs ++ [As4Path segs]))).
Proof.
  intros H2 H4 Hs.
  unfold downgradeAsPath, hasAttrib, getAttrib; simpl.
  rewrite (find_attrib_has _ _ _ H2), H2; simpl.
  rewrite (downgrade_segs_all _ [] [] Hs); simpl.
  unfold updateAttribute, dropAttrib, addAttrib, hasAttrib; simpl.
  assert (drop_first AS4_PATH attrs = None) as Hd.
  { clear H2. induction attrs as [|a l IH]; simpl in *; [reflexivity|].
    destruct (type_code a =? AS4_PATH); [discriminate|].
    rewrite (IH H4). reflexivity. }
  rewrite Hd; simpl. rewrite H4; simpl. reflexivity.
Qed.

(** The example of the spec comes out as stated: both ASNs are 23456
    after narrowing, so the reversal does not show. *)
Lemma downgradeAsPath_spec_example :
  downgradeAsPath msg_4b_large =
    (true, mkMsg true [Origin 0; AsPath true [seq2 [23456; 23456]];
                       As4Path [seq4 [65536; 65537]]]).
Proof. reflexivity. Qed.

(** C5, on the code: the path [1 2 3] is downgraded to the two-byte
    segment [3 2 1], while the AS4_PATH keeps [1 2 3]. *)
Theorem downgradeAsPath_reverses_segment :
  downgradeAsPath msg_4b_small =
    (true, mkMsg true [Origin 0; AsPath true [seq2 [3; 2; 1]];
                       As4Path [seq4 [1; 2; 3]]]).
Proof. reflexivity. Qed.

(** After a [downgradeAsPath] that went through, [restoreAsPath] refuses
    the message: the AS_PATH attribute is still marked four-byte. *)
Lemma downgrade_then_restore_refused
    (overlay : list Z -> list BgpAsPathSegment -> list BgpAsPathSegment)
    (m m' : BgpUpdateMessage) :
  hasAttrib AS_PATH m = true ->
  downgradeAsPath m = (true, m') ->
  restoreAsPath overlay m' = (false, m').
Proof.
  intros H. unfold downgradeAsPath. rewrite H; simpl.
  destruct (getAttrib AS_PATH m) as [a|]; [|discriminate].
  destruct a as [| p4 segs | | | | | | | |]; try discriminate.
  destruct p4; simpl; [|discriminate].
  destruct (downgrade_segs segs [] []) as [[new_segs as4]|]; [|discriminate].
  intros [= <-].
  set (m1 := snd (updateAttribute (As4Path as4) m)).
  assert (hasAttrib AS_PATH m1 = true) as H1.
  { unfold m1. rewrite has_updateAttribute_other; [exact H | discriminate]. }
  unfold restoreAsPath, hasAttrib, getAttrib, setAttrib, set_attribs; simpl.
  rewrite has_set_first by reflexivity.
  unfold hasAttrib in H1. rewrite H1; simpl.
  rewrite find_set_first_same by (reflexivity || exact H1).
  reflexivity.
Qed.

(** C6, on the code: the round trip of the path [1 2 3], all below 0xFFFF,
    ends in a refusal with the downgraded message unchanged. *)
Theorem downgrade_restore_round_trip_refused
    (overlay : list Z -> list BgpAsPathSegment -> list BgpAsPathSegment) :
  restoreAsPath overlay (snd (downgradeAsPath msg_4b_small)) =
    (false, mkMsg true [Origin 0; AsPath true [seq2 [3; 2; 1]];
                        As4Path [seq4 [1; 2; 3]]]).
Proof. reflexivity. Qed.

(** *** [restoreAsPath] *)




(** C10. [addAttrib a] answers false and leaves the attribute list as it
    was when an attribute with [a]'s type code is present; otherwise it
    appends [a] and answers true.  Hence a list whose type codes are
    pairwise distinct stays so. *)
Theorem addAttrib_no_duplicate (m : BgpUpdateMessage) (a : BgpPathAttrib) :
  addAttrib a m =
    (if hasAttrib (type_code a) m then (false, m)
     else (true, mkMsg (use_4b_asn m) (path_attribute m ++ [a])))
  /\ (hasAttrib (type_code a) m = true <->
      exists b, In b (path_attribute m) /\ type_code b = type_code a)
  /\ (NoDup (map type_code (path_attribute m)) ->
      NoDup (map type_code (path_attribute (snd (addAttrib a m))))).
Proof.
  split; [reflexivity|]. split.
  - unfold hasAttrib. rewrite has_attrib_In, in_map_iff.
    split; intros [b [H1 H2]]; exists b; split; assumption.
  - intros ND. unfold addAttrib.
    destruct (hasAttrib (type_code a) m) eqn:E; simpl; [exact ND|].
    rewrite map_app; simpl.
    assert (~ In (type_code a) (map type_code (path_attribute m))) as NI.
    { rewrite <- has_attrib_In. unfold hasAttrib in E. rewrite E. discriminate. }
    clear E. induction (map type_code (path_attribute m)) as [|x xs IH]; simpl.
    + constructor; [intros [] | constructor].
    + inversion ND; subst. constructor.
      * rewrite in_app_iff. intros [H|[H|[]]]; [contradiction|].
        apply NI. left. symmetry. exact H.
      * apply IH; [assumption|]. intros H. apply NI. right. exact H.
Qed.

(** The theorem at a sample message. *)
Lemma addAttrib_no_duplicate_witness :
  NoDup (map type_code [Origin 0; Nexthop 1]) /\
  NoDup (map type_code
           (path_attribute (snd (addAttrib (Med 5) (mkMsg true [Origin 0; Nexthop 1]))))).
Proof.
  assert (NoDup (map type_code [Origin 0; Nexthop 1])) as ND.
  { simpl. constructor; [intros [H|[]]; discriminate|].
    constructor; [intros []|constructor]. }
  split; [exact ND|].
  exact (proj2 (proj2 (addAttrib_no_duplicate (mkMsg true [Origin 0; Nexthop 1]) (Med 5))) ND).
Defined.

End UpdateFacts.

(** ** Facts about the RIB *)

Module RibFacts.
Import Attr Rib.

Lemma Prefix4_eqb_eq (a b : Prefix4) : Prefix4_eqb a b = true <-> a = b.
Proof.
  unfold Prefix4_eqb. rewrite andb_true_iff, !Z.eqb_eq.
  destruct a, b; simpl. split.
  - intros [-> ->]. reflexivity.
  - intros E. injection E. auto.
Qed.

Lemma Prefix4_eqb_refl (a : Prefix4) : Prefix4_eqb a a = true.
Proof. apply Prefix4_eqb_eq. reflexivity. Qed.

Lemma In_firstn {A : Type} (n : nat) (l : list A) (x : A) :
  In x (firstn n l) -> In x l.
Proof.
  intros H. rewrite <- (firstn_skipn n l). apply in_or_app. left. exact H.
Qed.

Lemma In_skipn {A : Type} (n : nat) (l : list A) (x : A) :
  In x (skipn n l) -> In x l.
Proof.
  intros H. rewrite <- (firstn_skipn n l). apply in_or_app. right. exact H.
Qed.

Lemma set_rib_same (r : BgpRib4) : set_rib r (rib r) = r.
Proof. destruct r; reflexivity. Qed.

Lemma erase_at_middle (l1 l2 : rib4_t) (e : BgpRib4Entry) :
  erase_at (length l1) (l1 ++ e :: l2) = l1 ++ l2.
Proof.
  unfold erase_at. induction l1 as [|a l1 IH]; simpl; [reflexivity|].
  f_equal. exact IH.
Qed.

Lemma nth_error_middle (l1 l2 : rib4_t) (e : BgpRib4Entry) :
  nth_error (l1 ++ e :: l2) (length l1) = Some e.
Proof.
  rewrite nth_error_app2 by lia. rewrite Nat.sub_diag. reflexivity.
Qed.

Section WithSelection.

Variable sel : BgpRib4Entry -> BgpRib4Entry -> bool.

(** *** [find_best] *)

Lemma find_best_from_app (p : Prefix4) (b : option BgpRib4Entry) (l1 l2 : rib4_t) :
  find_best_from sel p b (l1 ++ l2) = find_best_from sel p (find_best_from sel p b l1) l2.
Proof.
  revert b. induction l1 as [|e l1 IH]; intros b; simpl; [reflexivity|].
  destruct (Prefix4_eqb (route e) p); apply IH.
Qed.

Lemma find_best_from_absent (p : Prefix4) (b : option BgpRib4Entry) (l : rib4_t) :
  (forall e, In e l -> route e <> p) -> find_best_from sel p b l = b.
Proof.
  revert b. induction l as [|e l IH]; intros b H; simpl; [reflexivity|].
  destruct (Prefix4_eqb (route e) p) eqn:E.
  - apply Prefix4_eqb_eq in E. exfalso. apply (H e); [left; reflexivity | exact E].
  - apply IH. intros x Hx. apply H. right. exact Hx.
Qed.

Lemma find_best_from_some (p : Prefix4) (b : BgpRib4Entry) (l : rib4_t) :
  exists b', find_best_from sel p (Some b) l = Some b'.
Proof.
  revert b. induction l as [|e l IH]; intros b; simpl; [eauto|].
  destruct (Prefix4_eqb (route e) p); apply IH.
Qed.

Lemma find_best_present (p : Prefix4) (l : rib4_t) (e : BgpRib4Entry) :
  In e l -> route e = p -> exists b, find_best sel p l = Some b.
Proof.
  unfold find_best. generalize (@None BgpRib4Entry).
  induction l as [|x l IH]; intros b HI Hr; [destruct HI|].
  destruct HI as [HI|HI]; simpl.
  - subst x. rewrite Hr, Prefix4_eqb_refl. apply find_best_from_some.
  - destruct (Prefix4_eqb (route x) p); apply IH; assumption.
Qed.

Lemma find_best_none (p : Prefix4) (l : rib4_t) :
  find_best sel p l = None -> forall e, In e l -> route e <> p.
Proof.
  intros H e HI Hr.
  destruct (find_best_present p l e HI Hr) as [b Hb]. congruence.
Qed.

(** *** The loop of [withdraw] *)

Lemma key_match_iff (s : Z) (p : Prefix4) (e : BgpRib4Entry) :
  key_match s p e = true <-> route e = p /\ src_router_id e = s.
Proof.
  unfold key_match. rewrite andb_true_iff, Prefix4_eqb_eq, Z.eqb_eq. reflexivity.
Qed.

Lemma withdraw_scan_app (s : Z) (p : Prefix4) (l1 l2 : rib4_t) (i : nat)
    (rep : option BgpRib4Entry) (tr : option nat) :
  withdraw_scan sel s p (l1 ++ l2) i rep tr =
  withdraw_scan sel s p l2 (i + length l1)
    (fst (withdraw_scan sel s p l1 i rep tr))
    (snd (withdraw_scan sel s p l1 i rep tr)).
Proof.
  revert i rep tr. induction l1 as [|e l1 IH]; intros i rep tr; simpl.
  - rewrite Nat.add_0_r. reflexivity.
  - replace (i + S (length l1))%nat with (S i + length l1)%nat by lia.
    destruct (Prefix4_eqb (route e) p); [destruct (src_router_id e =? s)|]; apply IH.
Qed.

Lemma withdraw_scan_replacement (s : Z) (p : Prefix4) (l : rib4_t) (i : nat)
    (rep : option BgpRib4Entry) (tr : option nat) :
  fst (withdraw_scan sel s p l i rep tr) = find_best_from sel p rep (others s l).
Proof.
  revert i rep tr. induction l as [|e l IH]; intros i rep tr; simpl; [reflexivity|].
  destruct (src_router_id e =? s) eqn:Es; simpl.
  - destruct (Prefix4_eqb (route e) p); apply IH.
  - destruct (Prefix4_eqb (route e) p); apply IH.
Qed.

Lemma withdraw_scan_no_match (s : Z) (p : Prefix4) (l : rib4_t) (i : nat)
    (rep : option BgpRib4Entry) (tr : option nat) :
  (forall x, In x l -> key_match s p x = false) ->
  snd (withdraw_scan sel s p l i rep tr) = tr.
Proof.
  revert i rep tr. induction l as [|e l IH]; intros i rep tr H; simpl; [reflexivity|].
  assert (key_match s p e = false) as He by (apply H; left; reflexivity).
  assert (forall x, In x l -> key_match s p x = false) as Hl
    by (intros x Hx; apply H; right; exact Hx).
  unfold key_match in He.
  destruct (Prefix4_eqb (route e) p); [destruct (src_router_id e =? s)|];
    try discriminate; apply IH; exact Hl.
Qed.

Lemma withdraw_scan_last_match (s : Z) (p : Prefix4) (l1 l2 : rib4_t)
    (e : BgpRib4Entry) (rep : option BgpRib4Entry) :
  key_match s p e = true ->
  (forall x, In x l2 -> key_match s p x = false) ->
  snd (withdraw_scan sel s p (l1 ++ e :: l2) 0 rep None) = Some (length l1).
Proof.
  intros He Hl2. rewrite withdraw_scan_app. simpl.
  unfold key_match in He. apply andb_true_iff in He. destruct He as [-> ->].
  apply withdraw_scan_no_match. exact Hl2.
Qed.

Lemma last_match_split (s : Z) (p : Prefix4) (l : rib4_t) :
  existsb (key_match s p) l = true ->
  exists l1 e0 l2,
    l = l1 ++ e0 :: l2 /\ key_match s p e0 = true /\
    (forall x, In x l2 -> key_match s p x = false).
Proof.
  induction l as [|a l IH]; simpl; [discriminate|].
  destruct (existsb (key_match s p) l) eqn:Ex.
  - intros _. destruct (IH eq_refl) as [l1 [e0 [l2 [-> [K Hl2]]]]].
    exists (a :: l1), e0, l2. auto.
  - rewrite orb_false_r. intros Ka.
    exists [], a, l. split; [reflexivity|]. split; [exact Ka|].
    intros x Hx. destruct (key_match s p x) eqn:Kx; [|reflexivity].
    assert (existsb (key_match s p) l = true) as C
      by (apply existsb_exists; eauto).
    congruence.
Qed.

Lemma others_best (s : Z) (p : Prefix4) (l : rib4_t) :
  existsb (other_source s p) l = true ->
  exists rep, find_best sel p (others s l) = Some rep.
Proof.
  intros Ex. apply existsb_exists in Ex. destruct Ex as [o [Ho Ko]].
  unfold other_source in Ko. apply andb_true_iff in Ko. destruct Ko as [K1 K2].
  apply find_best_present with (e := o).
  - unfold others. apply filter_In. split; assumption.
  - apply Prefix4_eqb_eq. exact K1.
Qed.

Lemma others_no_best (s : Z) (p : Prefix4) (l : rib4_t) :
  existsb (other_source s p) l = false ->
  find_best sel p (others s l) = None.
Proof.
  intros Ex. unfold find_best. apply find_best_from_absent.
  intros e He Hr. unfold others in He. apply filter_In in He. destruct He as [He Hs].
  assert (existsb (other_source s p) l = true) as C.
  { apply existsb_exists. exists e. split; [exact He|].
    unfold other_source. rewrite Hs, andb_true_r. apply Prefix4_eqb_eq. exact Hr. }
  congruence.
Qed.

(** What [withdraw] does once the entry it erases is located. *)
Lemma withdraw_erases (s : Z) (p : Prefix4) (r : BgpRib4) (l1 l2 : rib4_t)
    (e0 rep : BgpRib4Entry) :
  rib r = l1 ++ e0 :: l2 ->
  key_match s p e0 = true ->
  (forall x, In x l2 -> key_match s p x = false) ->
  find_best sel p (others s (rib r)) = Some rep ->
  withdraw sel s p r =
    ((true, if negb (sel rep e0) then Some rep else None), set_rib r (l1 ++ l2)).
Proof.
  intros Hr K Hl2 Hrep. unfold withdraw.
  rewrite (surjective_pairing (withdraw_scan sel s p (rib r) 0 None None)).
  rewrite withdraw_scan_replacement. fold (find_best sel p (others s (rib r))).
  rewrite Hrep, Hr, (withdraw_scan_last_match s p l1 l2 e0 None K Hl2).
  rewrite nth_error_middle, erase_at_middle. reflexivity.
Qed.

(** With no entry of the prefix from another source, [withdraw] takes its
    last branch: it reports [false] and erases nothing. *)
Lemma withdraw_sole_source (s : Z) (p : Prefix4) (r : BgpRib4) :
  existsb (other_source s p) (rib r) = false ->
  withdraw sel s p r = ((false, None), r).
Proof.
  intros Ex. unfold withdraw.
  rewrite (surjective_pairing (withdraw_scan sel s p (rib r) 0 None None)).
  rewrite withdraw_scan_replacement. fold (find_best sel p (others s (rib r))).
  rewrite (others_no_best _ _ _ Ex).
  destruct (snd (withdraw_scan sel s p (rib r) 0 None None)); reflexivity.
Qed.

(** C1 (as amended).  Let the RIB hold an entry of prefix [p] from source
    [s].  If it also holds an entry of [p] from another source, [withdraw s p]
    erases one entry of [(p, s)], the last in iteration order, keeps all the
    others in place, and returns [true] with the best of the other sources
    when the erased entry was preferred to it, nil otherwise.  If it holds
    none, the call returns [(false, nil)]. *)
Theorem withdraw_removes_entry (s : Z) (p : Prefix4) (r : BgpRib4) (e : BgpRib4Entry) :
  In e (rib r) -> route e = p -> src_router_id e = s ->
  if existsb (other_source s p) (rib r) then
    exists l1 e0 l2 rep,
      rib r = l1 ++ e0 :: l2 /\
      route e0 = p /\ src_router_id e0 = s /\
      (forall x, In x l2 -> ~ (route x = p /\ src_router_id x = s)) /\
      find_best sel p (others s (rib r)) = Some rep /\
      withdraw sel s p r =
        ((true, if negb (sel rep e0) then Some rep else None), set_rib r (l1 ++ l2))
  else fst (withdraw sel s p r) = (false, None).
Proof.
  intros HI Hr Hs.
  destruct (existsb (other_source s p) (rib r)) eqn:Ex.
  - assert (existsb (key_match s p) (rib r) = true) as Km.
    { apply existsb_exists. exists e. split; [exact HI|]. apply key_match_iff. auto. }
    destruct (last_match_split _ _ _ Km) as [l1 [e0 [l2 [Hl [K Hl2]]]]].
    destruct (others_best _ _ _ Ex) as [rep Hrep].
    exists l1, e0, l2, rep.
    apply key_match_iff in K as K'. destruct K' as [K1 K2].
    repeat split; try assumption.
    + intros x Hx C. apply key_match_iff in C. rewrite (Hl2 x Hx) in C. discriminate.
    + apply withdraw_erases; assumption.
  - rewrite (withdraw_sole_source _ _ _ Ex). reflexivity.
Qed.

Variable slot : rib4_t -> BgpRib4Entry -> nat.

(** *** [insertPriv] *)

Lemma rib_insert_In (l : rib4_t) (e : BgpRib4Entry) : In e (rib_insert slot l e).
Proof. unfold rib_insert. apply in_or_app. right. left. reflexivity. Qed.

Lemma rib_insert_first_of_prefix (p : Prefix4) (l : rib4_t) (e : BgpRib4Entry) :
  (forall x, In x l -> route x <> p) -> route e = p ->
  find_best sel p (rib_insert slot l e) = Some e.
Proof.
  intros Hl He. unfold find_best, rib_insert.
  rewrite find_best_from_app.
  rewrite (find_best_from_absent p None (firstn (slot l e) l)).
  - simpl. rewrite He, Prefix4_eqb_refl. apply find_best_from_absent.
    intros x Hx. apply Hl. eapply In_skipn; eauto.
  - intros x Hx. apply Hl. eapply In_firstn; eauto.
Qed.

(** After [insertPriv] the prefix has a best entry, and the call returns it
    exactly when there was none before or its [update_id] is not the old
    one. *)
Lemma insertPriv_result (s : Z) (p : Prefix4) (attrib : list BgpPathAttrib)
    (w ibgp_asn : Z) (r : BgpRib4) :
  exists new_best,
    find_best sel p (rib (snd (insertPriv sel slot s p attrib w ibgp_asn r))) = Some new_best /\
    fst (insertPriv sel slot s p attrib w ibgp_asn r) =
      if match find_best sel p (rib r) with
         | None => true
         | Some old_best => negb (update_id new_best =? update_id old_best)
         end
      then Some new_best else None.
Proof.
  unfold insertPriv.
  set (new_entry := mkEntry p s attrib (rib_update_id r) w
                      (if 0 <? ibgp_asn then SRC_IBGP else SRC_EBGP) ibgp_asn).
  destruct (find_best sel p (rib r)) as [old|] eqn:Hold.
  - destruct (find_best_present p (rib_insert slot (erase_same_peer p s (rib r)) new_entry)
                new_entry (rib_insert_In _ _) eq_refl) as [nb Hnb].
    rewrite Hnb. exists nb. simpl. split; [exact Hnb | reflexivity].
  - exists new_entry. simpl. split; [|reflexivity].
    apply rib_insert_first_of_prefix; [|reflexivity].
    apply find_best_none. exact Hold.
Qed.

(** C2.  After the learned-route [insert], and after the [insertPriv] it
    runs, the prefix has a best entry, and the call returns that entry
    exactly when the prefix had no best entry before or the best entry's
    [update_id] differs from the one before; otherwise it returns nil. *)
Theorem insert_returns_new_best (s : Z) (p : Prefix4) (attrib : list BgpPathAttrib)
    (w ibgp_asn : Z) (r : BgpRib4) :
  (exists new_best,
     find_best sel p (rib (snd (insert sel slot s p attrib w ibgp_asn r))) = Some new_best /\
     fst (insert sel slot s p attrib w ibgp_asn r) =
       if match find_best sel p (rib r) with
          | None => true
          | Some old_best => negb (update_id new_best =? update_id old_best)
          end
       then Some new_best else None)
  /\
  (exists new_best,
     find_best sel p (rib (snd (insertPriv sel slot s p attrib w ibgp_asn r))) = Some new_best /\
     fst (insertPriv sel slot s p attrib w ibgp_asn r) =
       if match find_best sel p (rib r) with
          | None => true
          | Some old_best => negb (update_id new_best =? update_id old_best)
          end
       then Some new_best else None).
Proof.
  split; [|apply insertPriv_result].
  unfold insert.
  exact (insertPriv_result s p attrib w ibgp_asn
           {| rib := rib r; rib_update_id := (rib_update_id r + 1) mod 2 ^ 64 |}).
Qed.

Lemma erase_same_peer_none (s : Z) (p : Prefix4) (l : rib4_t) :
  (forall o, In o l -> route o = p -> src_router_id o <> s) ->
  erase_same_peer p s l = l.
Proof.
  intros H. unfold erase_same_peer. induction l as [|a l IH]; simpl; [reflexivity|].
  assert (Prefix4_eqb (route a) p && (src_router_id a =? s) = false) as Ka.
  { destruct (Prefix4_eqb (route a) p && (src_router_id a =? s)) eqn:K; [|reflexivity].
    apply andb_true_iff in K. destruct K as [K1 K2].
    apply Prefix4_eqb_eq in K1. apply Z.eqb_eq in K2.
    exfalso. apply (H a); [left; reflexivity | exact K1 | exact K2]. }
  rewrite Ka. simpl. f_equal. apply IH. intros o Ho. apply H. right. exact Ho.
Qed.

(** [insertPriv] for a new source of a prefix that has entries, undone by
    [withdraw]. *)
Lemma insertPriv_then_withdraw (s : Z) (p : Prefix4)
    (attrib : list BgpPathAttrib) (w ibgp_asn : Z) (r : BgpRib4) :
  (exists o, In o (rib r) /\ route o = p) ->
  (forall o, In o (rib r) -> route o = p -> src_router_id o <> s) ->
  snd (withdraw sel s p (snd (insertPriv sel slot s p attrib w ibgp_asn r))) = r /\
  fst (fst (withdraw sel s p (snd (insertPriv sel slot s p attrib w ibgp_asn r)))) = true /\
  find_best sel p
    (rib (snd (withdraw sel s p (snd (insertPriv sel slot s p attrib w ibgp_asn r)))))
  = find_best sel p (rib r).
Proof.
  intros [o [Ho Hor]] Hs.
  destruct (find_best_present p (rib r) o Ho Hor) as [old Hold].
  set (new_entry := mkEntry p s attrib (rib_update_id r) w
                      (if 0 <? ibgp_asn then SRC_IBGP else SRC_EBGP) ibgp_asn).
  assert (snd (insertPriv sel slot s p attrib w ibgp_asn r)
          = set_rib r (rib_insert slot (rib r) new_entry)) as Hins.
  { unfold insertPriv. fold new_entry. rewrite Hold, (erase_same_peer_none s p _ Hs).
    destruct (find_best sel p (rib_insert slot (rib r) new_entry)); reflexivity. }
  rewrite Hins. clear Hins.
  set (k := slot (rib r) new_entry).
  assert (existsb (other_source s p) (rib_insert slot (rib r) new_entry) = true) as Ex.
  { apply existsb_exists. exists o. split.
    - unfold rib_insert. fold k. rewrite <- (firstn_skipn k (rib r)) in Ho.
      apply in_app_or in Ho. apply in_or_app.
      destruct Ho as [Ho|Ho]; [left | right; right]; exact Ho.
    - unfold other_source. rewrite Hor, Prefix4_eqb_refl. simpl.
      apply negb_true_iff, Z.eqb_neq. apply (Hs o Ho Hor). }
  destruct (others_best _ _ _ Ex) as [rep Hrep].
  assert (withdraw sel s p (set_rib r (rib_insert slot (rib r) new_entry))
          = ((true, if negb (sel rep new_entry) then Some rep else None), r)) as Hw.
  { rewrite (withdraw_erases s p (set_rib r (rib_insert slot (rib r) new_entry))
               (firstn k (rib r)) (skipn k (rib r)) new_entry rep).
    - f_equal. unfold set_rib. simpl. rewrite firstn_skipn. apply set_rib_same.
    - reflexivity.
    - unfold key_match; simpl. rewrite Prefix4_eqb_refl, Z.eqb_refl. reflexivity.
    - intros x Hx. apply In_skipn in Hx.
      destruct (key_match s p x) eqn:K; [|reflexivity].
      apply key_match_iff in K. destruct K as [K1 K2].
      exfalso. apply (Hs x Hx K1 K2).
    - exact Hrep. }
  rewrite Hw. simpl. auto.
Qed.

(** C3 (as amended).  When the RIB holds an entry for the prefix and none
    of them comes from source [s], the learned-route [insert] for [s]
    followed by [withdraw s] gives back the entries of the RIB as they were,
    and with them the best entry of the prefix; after [insertPriv], which
    leaves the counter alone, the whole state is as before. *)
Theorem insert_then_withdraw_restores (s : Z) (p : Prefix4)
    (attrib : list BgpPathAttrib) (w ibgp_asn : Z) (r : BgpRib4) :
  (exists o, In o (rib r) /\ route o = p) ->
  (forall o, In o (rib r) -> route o = p -> src_router_id o <> s) ->
  (rib (snd (withdraw sel s p (snd (insert sel slot s p attrib w ibgp_asn r)))) = rib r /\
   fst (fst (withdraw sel s p (snd (insert sel slot s p attrib w ibgp_asn r)))) = true /\
   find_best sel p
     (rib (snd (withdraw sel s p (snd (insert sel slot s p attrib w ibgp_asn r)))))
   = find_best sel p (rib r))
  /\
  (snd (withdraw sel s p (snd (insertPriv sel slot s p attrib w ibgp_asn r))) = r /\
   fst (fst (withdraw sel s p (snd (insertPriv sel slot s p attrib w ibgp_asn r)))) = true /\
   find_best sel p
     (rib (snd (withdraw sel s p (snd (insertPriv sel slot s p attrib w ibgp_asn r)))))
   = find_best sel p (rib r)).
Proof.
  intros H1 H2. split; [|apply insertPriv_then_withdraw; assumption].
  unfold insert.
  destruct (insertPriv_then_withdraw s p attrib w ibgp_asn
              {| rib := rib r; rib_update_id := (rib_update_id r + 1) mod 2 ^ 64 |}
              H1 H2) as [E1 [E2 E3]].
  rewrite E1 in *. simpl in *. auto.
Qed.

End WithSelection.

(** *** The theorems at the sample states *)

(** C1 at the sample state with two sources: the entry of peer 1 goes. *)
Lemma withdraw_removes_entry_witness :
  In from_peer1 (rib rib_two) /\
  exists l1 e0 l2 rep,
    rib rib_two = l1 ++ e0 :: l2 /\
    route e0 = net10 /\ src_router_id e0 = 1 /\
    (forall x, In x l2 -> ~ (route x = net10 /\ src_router_id x = 1)) /\
    find_best selectEntry net10 (others 1 (rib rib_two)) = Some rep /\
    withdraw selectEntry 1 net10 rib_two =
      ((true, if negb (selectEntry rep e0) then Some rep else None),
       set_rib rib_two (l1 ++ l2)).
Proof.
  split; [left; reflexivity|].
  exact (withdraw_removes_entry selectEntry 1 net10 rib_two from_peer1
           (or_introl eq_refl) eq_refl eq_refl).
Defined.

(** C1, the claim as stated fails: withdrawing the only entry of a prefix
    returns [false], not [true], and the entry is still in the RIB. *)
Lemma withdraw_only_entry_counterexample :
  In from_peer1 (rib rib_one) /\
  route from_peer1 = net10 /\ src_router_id from_peer1 = 1 /\
  withdraw selectEntry 1 net10 rib_one = ((false, None), rib_one) /\
  In from_peer1 (rib (snd (withdraw selectEntry 1 net10 rib_one))).
Proof.
  repeat split; try reflexivity; left; reflexivity.
Qed.

(** C3 at the sample state with two sources, for a third peer. *)
Lemma insert_then_withdraw_restores_witness :
  (exists o, In o (rib rib_two) /\ route o = net10) /\
  rib (snd (withdraw selectEntry 3 net10
              (snd (insert selectEntry slot_front 3 net10 [] 5 0 rib_two)))) = rib rib_two.
Proof.
  assert (exists o, In o (rib rib_two) /\ route o = net10) as H1
    by (exists from_peer1; split; [left|]; reflexivity).
  assert (forall o, In o (rib rib_two) -> route o = net10 -> src_router_id o <> 3) as H2.
  { intros o [<-|[<-|[]]] _; simpl; discriminate. }
  split; [exact H1|].
  exact (proj1 (proj1 (insert_then_withdraw_restores selectEntry slot_front 3 net10 [] 5 0
                         rib_two H1 H2))).
Defined.

(** C3, the claim as stated fails: peer 1 holds the best entry of the
    prefix, [insertPriv] for peer 1 replaces it, and after [withdraw] the
    best entry is the one of peer 2. *)
Lemma insert_then_withdraw_counterexample :
  find_best selectEntry net10 (rib rib_two) = Some from_peer1 /\
  find_best selectEntry net10
    (rib (snd (withdraw selectEntry 1 net10
                 (snd (insert selectEntry slot_front 1 net10 [] 5 0 rib_two)))))
  = Some from_peer2 /\
  from_peer1 <> from_peer2.
Proof.
  repeat split; try reflexivity. discriminate.
Qed.

(** C9, on the code: [discard 1] leaves both entries in the RIB, the one
    of peer 1 included. *)
Theorem discard_leaves_entries :
  discard 1 rib_two = rib_two /\
  In from_peer1 (rib (discard 1 rib_two)) /\
  src_router_id from_peer1 = 1.
Proof.
  repeat split. left. reflexivity.
Qed.

End RibFacts.

(** ** Further facts about the UPDATE message *)

Module UpdateProps.
Import Attr Update UpdateExt UpdateFacts.

Lemma has_attrib_count (t : Z) (l : list BgpPathAttrib) :
  has_attrib t l = (0 <? count_code t l)%nat.
Proof.
  induction l as [|a l IH]; simpl; [reflexivity|].
  destruct (type_code a =? t); [reflexivity | exact IH].
Qed.

Lemma count_code_app (t : Z) (l : list BgpPathAttrib) (a : BgpPathAttrib) :
  count_code t (l ++ [a])
  = (count_code t l + if (type_code a =? t)%Z then 1 else 0)%nat.
Proof.
  induction l as [|x l IH]; simpl; [lia|]. rewrite IH. lia.
Qed.

Lemma drop_first_none (t : Z) (l : list BgpPathAttrib) :
  drop_first t l = None <-> has_attrib t l = false.
Proof.
  induction l as [|a l IH]; simpl; [tauto|].
  destruct (type_code a =? t); [split; discriminate|].
  destruct (drop_first t l); [|tauto].
  split; [discriminate|]. intros H. apply IH in H. discriminate.
Qed.

Lemma drop_first_count (t t' : Z) (l l' : list BgpPathAttrib) :
  drop_first t l = Some l' ->
  count_code t' l' = if t' =? t then pred (count_code t' l) else count_code t' l.
Proof.
  revert l'. induction l as [|a l IH]; intros l'; simpl; [discriminate|].
  destruct (Z.eqb_spec (type_code a) t) as [E|E].
  - intros [= <-]. rewrite E.
    destruct (Z.eqb_spec t t') as [->|N].
    + rewrite Z.eqb_refl. reflexivity.
    + destruct (Z.eqb_spec t' t) as [C|_]; [congruence | reflexivity].
  - destruct (drop_first t l) as [r|]; [|discriminate].
    intros [= <-]. simpl. rewrite (IH r eq_refl).
    destruct (Z.eqb_spec t' t) as [->|N]; [|reflexivity].
    destruct (Z.eqb_spec (type_code a) t) as [C|_]; [contradiction | reflexivity].
Qed.

Lemma find_attrib_first (t : Z) (l : list BgpPathAttrib) (a : BgpPathAttrib) :
  find_attrib t l = Some a ->
  exists l1 l2, l = l1 ++ a :: l2 /\ has_attrib t l1 = false.
Proof.
  induction l as [|x l IH]; simpl; [discriminate|].
  destruct (type_code x =? t) eqn:E.
  - intros [= <-]. exists [], l. split; reflexivity.
  - intros H. destruct (IH H) as [l1 [l2 [-> H1]]].
    exists (x :: l1), l2. split; [reflexivity|]. simpl. rewrite E. exact H1.
Qed.

(** X1.  [getAttrib t] finds an attribute exactly when [hasAttrib t] answers
    true (otherwise the source throws), and what it finds is the first
    attribute of the list whose type code is [t]. *)
Theorem getAttrib_first_of_type (t : Z) (m : BgpUpdateMessage) :
  (hasAttrib t m = true <-> exists a, getAttrib t m = Some a) /\
  (hasAttrib t m = false <-> getAttrib t m = None) /\
  (forall a, getAttrib t m = Some a ->
     type_code a = t /\
     exists l1 l2, path_attribute m = l1 ++ a :: l2 /\
                   forall b, In b l1 -> type_code b <> t).
Proof.
  unfold hasAttrib, getAttrib. split; [|split].
  - split; [apply find_attrib_some|]. intros [a Ha]. exact (find_attrib_has _ _ _ Ha).
  - apply find_attrib_none.
  - intros a Ha. split; [exact (find_attrib_code _ _ _ Ha)|].
    destruct (find_attrib_first _ _ _ Ha) as [l1 [l2 [E H1]]].
    exists l1, l2. split; [exact E|].
    intros b Hb C.
    assert (has_attrib t l1 = true) as H by (apply has_attrib_In, in_map_iff; eauto).
    congruence.
Qed.

Lemma drop_first_split (t : Z) (l l' : list BgpPathAttrib) :
  drop_first t l = Some l' ->
  exists l1 a l2,
    l = l1 ++ a :: l2 /\ type_code a = t /\
    (forall b, In b l1 -> type_code b <> t) /\
    l' = l1 ++ l2.
Proof.
  revert l'. induction l as [|x l IH]; intros l'; simpl; [discriminate|].
  destruct (Z.eqb_spec (type_code x) t) as [E|E].
  - intros [= <-]. exists [], x, l.
    split; [reflexivity|]. split; [exact E|]. split; [intros b []|reflexivity].
  - destruct (drop_first t l) as [r|]; [|discriminate].
    intros [= <-]. destruct (IH r eq_refl) as [l1 [a [l2 [-> [Ha [H1 ->]]]]]].
    exists (x :: l1), a, l2.
    split; [reflexivity|]. split; [exact Ha|]. split; [|reflexivity].
    intros b [<-|Hb]; [exact E | apply H1; exact Hb].
Qed.

(** What [dropAttrib] does to the list. *)
Lemma dropAttrib_facts (t : Z) (m : BgpUpdateMessage) :
  fst (dropAttrib t m) = hasAttrib t m /\
  use_4b_asn (snd (dropAttrib t m)) = use_4b_asn m /\
  (hasAttrib t m = false -> snd (dropAttrib t m) = m) /\
  count_code t (path_attribute (snd (dropAttrib t m)))
    = pred (count_code t (path_attribute m)) /\
  (forall t', t' <> t ->
     getAttrib t' (snd (dropAttrib t m)) = getAttrib t' m /\
     count_code t' (path_attribute (snd (dropAttrib t m)))
       = count_code t' (path_attribute m)).
Proof.
  unfold dropAttrib, hasAttrib, getAttrib.
  destruct (drop_first t (path_attribute m)) as [l|] eqn:E; simpl.
  - assert (has_attrib t (path_attribute m) = true) as H.
    { destruct (has_attrib t (path_attribute m)) eqn:H; [reflexivity|].
      apply drop_first_none in H. congruence. }
    rewrite H. repeat split.
    + discriminate.
    + rewrite (drop_first_count t t _ _ E), Z.eqb_refl. reflexivity.
    + apply find_drop_first_other with (t := t); assumption.
    + rewrite (drop_first_count t t' _ _ E).
      destruct (Z.eqb_spec t' t) as [C|_]; [contradiction | reflexivity].
  - apply drop_first_none in E as H. rewrite H. repeat split.
    rewrite has_attrib_count in H.
    destruct (count_code t (path_attribute m)); [reflexivity | discriminate].
Qed.

(** X2.  [dropAttrib t] returns whether an attribute of type [t] was
    present.  A message without one is returned unchanged.  Otherwise the
    attribute list is the old one with its first attribute of type [t]
    taken out and everything else in place: what stood before it, none of
    type [t], and what stood after it, later attributes of type [t]
    included. *)
Theorem dropAttrib_erases_one (t : Z) (m : BgpUpdateMessage) :
  fst (dropAttrib t m) = hasAttrib t m /\
  use_4b_asn (snd (dropAttrib t m)) = use_4b_asn m /\
  (hasAttrib t m = false -> snd (dropAttrib t m) = m) /\
  (hasAttrib t m = true ->
     exists l1 a l2,
       path_attribute m = l1 ++ a :: l2 /\
       type_code a = t /\
       (forall b, In b l1 -> type_code b <> t) /\
       path_attribute (snd (dropAttrib t m)) = l1 ++ l2) /\
  count_code t (path_attribute (snd (dropAttrib t m)))
    = pred (count_code t (path_attribute m)) /\
  hasAttrib t (snd (dropAttrib t m)) = (1 <? count_code t (path_attribute m))%nat /\
  (forall t', t' <> t ->
     getAttrib t' (snd (dropAttrib t m)) = getAttrib t' m /\
     count_code t' (path_attribute (snd (dropAttrib t m)))
       = count_code t' (path_attribute m)).
Proof.
  destruct (dropAttrib_facts t m) as [H1 [H2 [H3 [H4 H5]]]].
  repeat apply conj; try assumption.
  - intros H. unfold dropAttrib.
    destruct (drop_first t (path_attribute m)) as [l|] eqn:E.
    + exact (drop_first_split t _ l E).
    + apply drop_first_none in E. unfold hasAttrib in H. congruence.
  - unfold hasAttrib. rewrite has_attrib_count, H4.
    destruct (count_code t (path_attribute m)) as [|[|n]]; reflexivity.
Qed.

(** What [updateAttribute] does, in terms of the number of attributes of the
    type that the message held. *)
Lemma updateAttribute_facts (a : BgpPathAttrib) (m : BgpUpdateMessage) :
  fst (updateAttribute a m)
    = (count_code (type_code a) (path_attribute m) <=? 1)%nat /\
  ((count_code (type_code a) (path_attribute m) <= 1)%nat ->
     getAttrib (type_code a) (snd (updateAttribute a m)) = Some a /\
     count_code (type_code a) (path_attribute (snd (updateAttribute a m))) = 1%nat) /\
  ((1 < count_code (type_code a) (path_attribute m))%nat ->
     snd (updateAttribute a m) = snd (dropAttrib (type_code a) m)) /\
  (forall t', t' <> type_code a ->
     getAttrib t' (snd (updateAttribute a m)) = getAttrib t' m /\
     count_code t' (path_attribute (snd (updateAttribute a m)))
       = count_code t' (path_attribute m)).
Proof.
  destruct (dropAttrib_facts (type_code a) m) as [_ [_ [_ [Hc Ho]]]].
  unfold updateAttribute, addAttrib.
  set (m1 := snd (dropAttrib (type_code a) m)) in *.
  assert (hasAttrib (type_code a) m1
          = (1 <? count_code (type_code a) (path_attribute m))%nat) as Hh.
  { unfold hasAttrib. rewrite has_attrib_count, Hc.
    destruct (count_code (type_code a) (path_attribute m)) as [|[|n]]; reflexivity. }
  rewrite Hh.
  destruct (Nat.ltb_spec 1 (count_code (type_code a) (path_attribute m))) as [L|L]; simpl.
  - repeat split.
    + symmetry. apply Nat.leb_gt. exact L.
    + lia.
    + lia.
    + apply Ho. assumption.
    + apply Ho. assumption.
  - repeat split.
    + symmetry. apply Nat.leb_le. exact L.
    + unfold getAttrib; simpl. rewrite find_attrib_app.
      assert (find_attrib (type_code a) (path_attribute m1) = None) as N.
      { apply find_attrib_none. rewrite has_attrib_count, Hc.
        apply Nat.ltb_ge. lia. }
      rewrite N, Z.eqb_refl. reflexivity.
    + simpl. rewrite count_code_app, Z.eqb_refl, Hc. lia.
    + lia.
    + unfold getAttrib; simpl. rewrite find_attrib_app.
      destruct (Z.eqb_spec (type_code a) t') as [C|_]; [congruence|].
      destruct (Ho t' H) as [G _]. unfold getAttrib in G. rewrite G.
      destruct (find_attrib t' (path_attribute m)); reflexivity.
    + simpl. destruct (Ho t' H) as [_ G]. rewrite <- G, count_code_app.
      destruct (Z.eqb_spec (type_code a) t') as [C|_]; [congruence | lia].
Qed.

(** X3.  [updateAttribute a] succeeds exactly when the message held at most
    one attribute of [a]'s type: then [a] is the one and only attribute of
    that type afterwards.  With two or more it returns false and only the
    first of them is gone.  The attributes of the other types are as they
    were in every case. *)
Theorem updateAttribute_replaces (a : BgpPathAttrib) (m : BgpUpdateMessage) :
  fst (updateAttribute a m)
    = (count_code (type_code a) (path_attribute m) <=? 1)%nat /\
  ((count_code (type_code a) (path_attribute m) <= 1)%nat ->
     getAttrib (type_code a) (snd (updateAttribute a m)) = Some a /\
     count_code (type_code a) (path_attribute (snd (updateAttribute a m))) = 1%nat) /\
  ((1 < count_code (type_code a) (path_attribute m))%nat ->
     snd (updateAttribute a m) = snd (dropAttrib (type_code a) m)) /\
  (forall t', t' <> type_code a ->
     getAttrib t' (snd (updateAttribute a m)) = getAttrib t' m /\
     count_code t' (path_attribute (snd (updateAttribute a m)))
       = count_code t' (path_attribute m)).
Proof. exact (updateAttribute_facts a m). Qed.



Lemma find_attrib_app_other (t : Z) (l : list BgpPathAttrib) (a : BgpPathAttrib) :
  type_code a <> t -> find_attrib t (l ++ [a]) = find_attrib t l.
Proof.
  intros N. rewrite find_attrib_app.
  destruct (Z.eqb_spec (type_code a) t) as [C|_]; [contradiction|].
  destruct (find_attrib t l); reflexivity.
Qed.

(** X5.  [prepend] touches nothing but the two paths: the mode flag and the
    attribute that [getAttrib] finds for any type other than AS_PATH and
    AS4_PATH are the same after the call, whether it succeeds or not. *)
Theorem prepend_keeps_other_attributes (asn : Z) (m : BgpUpdateMessage) (t : Z) :
  t <> AS_PATH -> t <> AS4_PATH ->
  use_4b_asn (snd (prepend asn m)) = use_4b_asn m /\
  getAttrib t (snd (prepend asn m)) = getAttrib t m.
Proof.
  intros N2 N4. unfold prepend.
  destruct (use_4b_asn m) eqn:U.
  - destruct (hasAttrib AS4_PATH m); [auto|].
    destruct (hasAttrib AS_PATH m) eqn:H2; simpl.
    + destruct (getAttrib AS_PATH m) as [a|] eqn:G; [|auto].
      destruct a; auto. destruct path_is_4b; simpl; [|auto].
      split; [exact U|].
      unfold getAttrib, setAttrib; simpl.
      apply find_set_first_other; [reflexivity | assumption].
    + split; [exact U|]. unfold getAttrib; simpl.
      apply find_attrib_app_other. simpl. congruence.
  - match goal with |- context [let (ok, m1) := ?x in _] => 
      assert (use_4b_asn (snd x) = false /\ getAttrib t (snd x) = getAttrib t m) as A;
      [| destruct x as [ok m1] ] end.
    { destruct (hasAttrib AS_PATH m) eqn:H2; simpl.
      + destruct (getAttrib AS_PATH m) as [a|] eqn:G; [|auto].
        destruct a; auto. destruct path_is_4b; simpl; [auto|].
        split; [exact U|].
        unfold getAttrib, setAttrib; simpl.
        apply find_set_first_other; [reflexivity | assumption].
      + split; [exact U|]. unfold getAttrib; simpl.
        apply find_attrib_app_other. simpl. congruence. }
    simpl in A. destruct A as [A1 A2].
    destruct ok; simpl; [|auto].
    destruct (hasAttrib AS4_PATH m1); [|auto].
    destruct (getAttrib AS4_PATH m1) as [a|]; [|auto].
    destruct a; auto. simpl. split; [exact A1|]. rewrite <- A2.
    unfold getAttrib, setAttrib; simpl.
    apply find_set_first_other; [reflexivity | assumption].
Qed.










(** X5 at a sample message: the NEXT_HOP survives a [prepend]. *)
Lemma prepend_keeps_other_attributes_witness :
  NEXT_HOP <> AS_PATH /\ NEXT_HOP <> AS4_PATH /\
  getAttrib NEXT_HOP (snd (prepend 65001 msg_full)) = getAttrib NEXT_HOP msg_full.
Proof.
  assert (NEXT_HOP <> AS_PATH) as N2 by discriminate.
  assert (NEXT_HOP <> AS4_PATH) as N4 by discriminate.
  split; [exact N2|]. split; [exact N4|].
  exact (proj2 (prepend_keeps_other_attributes 65001 msg_full NEXT_HOP N2 N4)).
Defined.




End UpdateProps.

(** ** Further facts about the RIB *)

Module RibProps.
Import Attr Rib RibExt RibFacts.

Section BestEntry.

Variable sel : BgpRib4Entry -> BgpRib4Entry -> bool.

Lemma find_best_from_origin (p : Prefix4) (best : option BgpRib4Entry) (l : rib4_t)
    (b : BgpRib4Entry) :
  find_best_from sel p best l = Some b ->
  best = Some b \/ (In b l /\ route b = p).
Proof.
  revert best. induction l as [|it l IH]; intros best; simpl; [auto|].
  destruct (Prefix4_eqb (route it) p) eqn:E.
  - intros H. destruct (IH _ H) as [H1|[H1 H2]]; [|auto].
    apply Prefix4_eqb_eq in E.
    destruct best as [b0|].
    + destruct (sel b0 it); injection H1 as <-; auto.
    + injection H1 as <-. auto.
  - intros H. destruct (IH _ H) as [H1|[H1 H2]]; auto.
Qed.

(** X11.  What [find_best] returns is an entry of the map whose route is
    the prefix asked for, and it returns nothing exactly when the map holds
    no entry of that prefix. *)
Theorem find_best_is_entry_of_prefix (p : Prefix4) (l : rib4_t) :
  (forall b, find_best sel p l = Some b -> In b l /\ route b = p) /\
  (find_best sel p l = None <-> forall e, In e l -> route e <> p).
Proof.
  split.
  - intros b H. destruct (find_best_from_origin p None l b H) as [C|C];
      [discriminate | exact C].
  - split; [apply find_best_none|].
    intros H. unfold find_best. apply find_best_from_absent. exact H.
Qed.

Lemma find_best_filter (f : BgpRib4Entry -> bool) (p : Prefix4)
    (best : option BgpRib4Entry) (l : rib4_t) :
  (forall x, In x l -> route x = p -> f x = true) ->
  find_best_from sel p best (filter f l) = find_best_from sel p best l.
Proof.
  revert best. induction l as [|it l IH]; intros best H; simpl; [reflexivity|].
  assert (forall x, In x l -> route x = p -> f x = true) as Hl
    by (intros x Hx; apply H; right; exact Hx).
  destruct (Prefix4_eqb (route it) p) eqn:E.
  - apply Prefix4_eqb_eq in E as E'. rewrite (H it (or_introl eq_refl) E'). simpl.
    rewrite E. apply IH. exact Hl.
  - destruct (f it); simpl; [rewrite E|]; apply IH; exact Hl.
Qed.

End BestEntry.

Lemma find_entry_sound (p : Prefix4) (s : Z) (l : rib4_t) (e : BgpRib4Entry) :
  find_entry p s l = Some e -> In e l /\ key_match s p e = true.
Proof.
  induction l as [|it l IH]; simpl; [discriminate|].
  destruct (Prefix4_eqb (route it) p && (src_router_id it =? s)) eqn:E.
  - intros [= <-]. auto.
  - intros H. destruct (IH H). auto.
Qed.

Lemma find_entry_none (p : Prefix4) (s : Z) (l : rib4_t) :
  find_entry p s l = None <-> existsb (key_match s p) l = false.
Proof.
  induction l as [|it l IH]; simpl; [tauto|]. unfold key_match at 1.
  destruct (Prefix4_eqb (route it) p && (src_router_id it =? s)); simpl;
    [split; discriminate | exact IH].
Qed.

Lemma existsb_false_In {A : Type} (f : A -> bool) (l : list A) :
  existsb f l = false <-> forall x, In x l -> f x = false.
Proof.
  split.
  - intros H x Hx. destruct (f x) eqn:E; [|reflexivity].
    assert (existsb f l = true) as C by (apply existsb_exists; eauto). congruence.
  - intros H. destruct (existsb f l) eqn:E; [|reflexivity].
    apply existsb_exists in E. destruct E as [x [Hx Fx]]. rewrite (H x Hx) in Fx.
    discriminate.
Qed.

(** X12.  [find_entry] returns the first entry in map order whose route and
    source are the ones asked for, and nothing exactly when the map holds
    no such entry. *)
Theorem find_entry_first_match (p : Prefix4) (s : Z) (l : rib4_t) :
  (forall e, find_entry p s l = Some e ->
     route e = p /\ src_router_id e = s /\
     exists l1 l2, l = l1 ++ e :: l2 /\
       forall x, In x l1 -> ~ (route x = p /\ src_router_id x = s)) /\
  (find_entry p s l = None <->
     forall x, In x l -> ~ (route x = p /\ src_router_id x = s)).
Proof.
  split.
  - induction l as [|it l IH]; simpl; [discriminate|]. intros e.
    destruct (Prefix4_eqb (route it) p && (src_router_id it =? s)) eqn:E.
    + intros [= <-]. apply key_match_iff in E. destruct E as [E1 E2].
      repeat split; try assumption. exists [], l. split; [reflexivity|]. intros x [].
    + intros H. destruct (IH e H) as [H1 [H2 [l1 [l2 [-> H3]]]]].
      repeat split; try assumption. exists (it :: l1), l2. split; [reflexivity|].
      intros x [<-|Hx]; [|apply H3; exact Hx].
      intros C. apply key_match_iff in C. unfold key_match in C. congruence.
  - rewrite find_entry_none, existsb_false_In. split; intros H x Hx.
    + intros C. apply key_match_iff in C. rewrite (H x Hx) in C. discriminate.
    + destruct (key_match s p x) eqn:K; [|reflexivity].
      apply key_match_iff in K. exfalso. exact (H x Hx K).
Qed.

Lemma filter_nil {A : Type} (f : A -> bool) (l : list A) :
  (forall x, In x l -> f x = false) -> filter f l = [].
Proof.
  induction l as [|a l IH]; intros H; simpl; [reflexivity|].
  rewrite (H a (or_introl eq_refl)). apply IH. intros x Hx. apply H. right. exact Hx.
Qed.

Lemma filter_id {A : Type} (f : A -> bool) (l : list A) :
  (forall x, In x l -> f x = true) -> filter f l = l.
Proof.
  induction l as [|a l IH]; intros H; simpl; [reflexivity|].
  rewrite (H a (or_introl eq_refl)). f_equal. apply IH. intros x Hx. apply H. right. exact Hx.
Qed.

Lemma filter_idem {A : Type} (f : A -> bool) (l : list A) :
  filter f (filter f l) = filter f l.
Proof.
  apply filter_id. intros x Hx. apply filter_In in Hx. apply Hx.
Qed.

Lemma find_entry_app (p : Prefix4) (s : Z) (l1 l2 : rib4_t) :
  find_entry p s (l1 ++ l2) =
  match find_entry p s l1 with
  | Some x => Some x
  | None => find_entry p s l2
  end.
Proof.
  induction l1 as [|a l1 IH]; simpl; [reflexivity|].
  destruct (Prefix4_eqb (route a) p && (src_router_id a =? s)); [reflexivity | exact IH].
Qed.

Lemma erase_same_peer_filter (p : Prefix4) (s : Z) (l : rib4_t) :
  erase_same_peer p s l = filter (fun x => negb (key_match s p x)) l.
Proof. reflexivity. Qed.

Lemma erase_same_peer_no_match (p : Prefix4) (s : Z) (l : rib4_t) (x : BgpRib4Entry) :
  In x (erase_same_peer p s l) -> key_match s p x = false.
Proof.
  rewrite erase_same_peer_filter. intros H. apply filter_In in H.
  apply negb_true_iff. apply H.
Qed.

Section WithPlacement.

Variable sel : BgpRib4Entry -> BgpRib4Entry -> bool.
Variable slot : rib4_t -> BgpRib4Entry -> nat.

Lemma insertPriv_state (s : Z) (p : Prefix4) (attrib : list BgpPathAttrib)
    (w ibgp_asn : Z) (r : BgpRib4) :
  snd (insertPriv sel slot s p attrib w ibgp_asn r) =
  set_rib r (rib_insert slot (erase_same_peer p s (rib r))
               (learned_entry s p attrib w ibgp_asn (rib_update_id r))).
Proof.
  unfold insertPriv, learned_entry.
  destruct (find_best sel p (rib r)) as [old|] eqn:Hold.
  - match goal with |- context [find_best sel p ?l] => destruct (find_best sel p l) end;
      reflexivity.
  - simpl. rewrite erase_same_peer_none; [reflexivity|].
    intros o Ho Hr. exfalso. exact (find_best_none sel p (rib r) Hold o Ho Hr).
Qed.

Lemma filter_rib_insert (f : BgpRib4Entry -> bool) (l : rib4_t) (e : BgpRib4Entry) :
  filter f (rib_insert slot l e) =
  if f e then filter f (firstn (slot l e) l) ++ e :: filter f (skipn (slot l e) l)
  else filter f l.
Proof.
  unfold rib_insert. rewrite filter_app. simpl.
  destruct (f e); [reflexivity|].
  rewrite <- filter_app, firstn_skipn. reflexivity.
Qed.

Lemma insertPriv_single (s : Z) (p : Prefix4) (attrib : list BgpPathAttrib)
    (w ibgp_asn : Z) (r : BgpRib4) :
  filter (key_match s p) (rib (snd (insertPriv sel slot s p attrib w ibgp_asn r)))
    = [learned_entry s p attrib w ibgp_asn (rib_update_id r)] /\
  find_entry p s (rib (snd (insertPriv sel slot s p attrib w ibgp_asn r)))
    = Some (learned_entry s p attrib w ibgp_asn (rib_update_id r)).
Proof.
  rewrite insertPriv_state. simpl.
  set (e := learned_entry s p attrib w ibgp_asn (rib_update_id r)).
  set (l1 := erase_same_peer p s (rib r)).
  assert (key_match s p e = true) as Ke.
  { unfold key_match; simpl. rewrite Prefix4_eqb_refl, Z.eqb_refl. reflexivity. }
  assert (forall x, In x l1 -> key_match s p x = false) as H1
    by (intros x; apply erase_same_peer_no_match).
  split.
  - rewrite filter_rib_insert, Ke.
    rewrite !filter_nil; [reflexivity| |].
    + intros x Hx. apply H1. eapply In_skipn; eauto.
    + intros x Hx. apply H1. eapply In_firstn; eauto.
  - unfold rib_insert. rewrite find_entry_app.
    assert (find_entry p s (firstn (slot l1 e) l1) = None) as N.
    { apply find_entry_none, existsb_false_In.
      intros x Hx. apply H1. eapply In_firstn; eauto. }
    rewrite N. cbn [find_entry].
    change (Prefix4_eqb (route e) p && (src_router_id e =? s)) with (key_match s p e).
    rewrite Ke. reflexivity.
Qed.

Lemma find_best_other_prefix (s : Z) (p q : Prefix4) (l : rib4_t) :
  q <> p ->
  find_best sel q (filter (fun x => negb (key_match s p x)) l) = find_best sel q l.
Proof.
  intros N. unfold find_best. apply find_best_filter.
  intros x _ Hx. apply negb_true_iff.
  destruct (key_match s p x) eqn:K; [|reflexivity].
  apply key_match_iff in K. destruct K as [K _]. congruence.
Qed.

Lemma insertPriv_others (s : Z) (p : Prefix4) (attrib : list BgpPathAttrib)
    (w ibgp_asn : Z) (r : BgpRib4) :
  filter (fun x => negb (key_match s p x))
    (rib (snd (insertPriv sel slot s p attrib w ibgp_asn r)))
  = filter (fun x => negb (key_match s p x)) (rib r).
Proof.
  rewrite insertPriv_state. simpl.
  rewrite filter_rib_insert.
  assert (key_match s p (learned_entry s p attrib w ibgp_asn (rib_update_id r)) = true) as Ke.
  { unfold key_match; simpl. rewrite Prefix4_eqb_refl, Z.eqb_refl. reflexivity. }
  rewrite Ke. simpl. rewrite erase_same_peer_filter. apply filter_idem.
Qed.

Lemma withdraw_absent (s : Z) (p : Prefix4) (r : BgpRib4) :
  existsb (key_match s p) (rib r) = false ->
  withdraw sel s p r = ((false, None), r).
Proof.
  intros H. unfold withdraw.
  rewrite (surjective_pairing (withdraw_scan sel s p (rib r) 0 None None)).
  rewrite (withdraw_scan_no_match sel s p (rib r) 0 None None);
    [|apply existsb_false_In; exact H].
  destruct (fst (withdraw_scan sel s p (rib r) 0 None None)); reflexivity.
Qed.

Lemma withdraw_cases (s : Z) (p : Prefix4) (r : BgpRib4) :
  withdraw sel s p r = ((false, None), r) \/
  exists l1 e0 l2 rep,
    rib r = l1 ++ e0 :: l2 /\
    key_match s p e0 = true /\
    (forall x, In x l2 -> key_match s p x = false) /\
    find_best sel p (others s (rib r)) = Some rep /\
    withdraw sel s p r =
      ((true, if negb (sel rep e0) then Some rep else None), set_rib r (l1 ++ l2)).
Proof.
  destruct (existsb (key_match s p) (rib r)) eqn:Km;
    [|left; apply withdraw_absent; exact Km].
  destruct (existsb (other_source s p) (rib r)) eqn:Ex;
    [|left; apply withdraw_sole_source; exact Ex].
  right.
  destruct (last_match_split s p (rib r) Km) as [l1 [e0 [l2 [Hl [K Hl2]]]]].
  destruct (others_best sel s p (rib r) Ex) as [rep Hrep].
  exists l1, e0, l2, rep. repeat split; try assumption.
  apply withdraw_erases; assumption.
Qed.

Lemma filter_drop_middle (f : BgpRib4Entry -> bool) (l1 l2 : rib4_t) (e : BgpRib4Entry) :
  f e = false -> filter f (l1 ++ e :: l2) = filter f (l1 ++ l2).
Proof.
  intros H. rewrite !filter_app. simpl. rewrite H. reflexivity.
Qed.

Lemma withdraw_others (s : Z) (p : Prefix4) (r : BgpRib4) :
  filter (fun x => negb (key_match s p x)) (rib (snd (withdraw sel s p r)))
  = filter (fun x => negb (key_match s p x)) (rib r).
Proof.
  destruct (withdraw_cases s p r) as [->|[l1 [e0 [l2 [rep [Hl [K [_ [_ ->]]]]]]]]];
    [reflexivity|].
  simpl. rewrite Hl. symmetry. apply filter_drop_middle. rewrite K. reflexivity.
Qed.


Lemma NoDup_keys_filter (f : BgpRib4Entry -> bool) (l : rib4_t) :
  NoDup (keys l) -> NoDup (keys (filter f l)).
Proof.
  unfold keys. induction l as [|a l IH]; simpl; intros H; [constructor|].
  inversion H as [|k ks Hn Hd]; subst.
  destruct (f a); simpl; [|apply IH; exact Hd].
  constructor; [|apply IH; exact Hd].
  intros C. apply Hn. apply in_map_iff in C. destruct C as [x [Ex Hx]].
  apply filter_In in Hx. apply in_map_iff. exists x. split; [exact Ex | apply Hx].
Qed.

Lemma keys_insert_NoDup (l : rib4_t) (e : BgpRib4Entry) :
  NoDup (keys l) -> ~ In (route e, src_router_id e) (keys l) ->
  NoDup (keys (rib_insert slot l e)).
Proof.
  intros Hd Hn. unfold rib_insert, keys. rewrite map_app. simpl.
  apply (NoDup_Add (Add_app (route e, src_router_id e)
           (map (fun x => (route x, src_router_id x)) (firstn (slot l e) l))
           (map (fun x => (route x, src_router_id x)) (skipn (slot l e) l)))).
  rewrite <- map_app, firstn_skipn. split; assumption.
Qed.

Lemma key_in_keys (s : Z) (p : Prefix4) (l : rib4_t) :
  In (p, s) (keys l) <-> exists x, In x l /\ key_match s p x = true.
Proof.
  unfold keys. rewrite in_map_iff. split; intros [x [H1 H2]]; exists x.
  - split; [exact H2|]. apply key_match_iff. injection H1. auto.
  - apply key_match_iff in H2. destruct H2 as [-> ->]. auto.
Qed.

Lemma unique_key_gone (s : Z) (p : Prefix4) (l1 l2 : rib4_t) (e0 : BgpRib4Entry) :
  NoDup (keys (l1 ++ e0 :: l2)) -> key_match s p e0 = true ->
  forall x, In x (l1 ++ l2) -> key_match s p x = false.
Proof.
  intros Hd K x Hx. destruct (key_match s p x) eqn:Kx; [|reflexivity].
  exfalso. unfold keys in Hd. rewrite map_app in Hd. simpl in Hd.
  apply NoDup_remove_2 in Hd. apply Hd. rewrite <- map_app.
  apply key_match_iff in K. destruct K as [K1 K2]. rewrite K1, K2.
  apply (proj2 (key_in_keys s p (l1 ++ l2))). eauto.
Qed.

(** X13.  After the learned-route [insert] (and after [insertPriv]) the map
    holds exactly one entry of the prefix and source given, whatever it
    held before: the new entry, stamped with the counter, the weight and
    the IBGP mark of the call; [find_entry] finds it. *)
Theorem insert_leaves_one_entry (s : Z) (p : Prefix4) (attrib : list BgpPathAttrib)
    (w ibgp_asn : Z) (r : BgpRib4) :
  (filter (key_match s p) (rib (snd (insert sel slot s p attrib w ibgp_asn r)))
     = [learned_entry s p attrib w ibgp_asn ((rib_update_id r + 1) mod 2 ^ 64)] /\
   find_entry p s (rib (snd (insert sel slot s p attrib w ibgp_asn r)))
     = Some (learned_entry s p attrib w ibgp_asn ((rib_update_id r + 1) mod 2 ^ 64)))
  /\
  (filter (key_match s p) (rib (snd (insertPriv sel slot s p attrib w ibgp_asn r)))
     = [learned_entry s p attrib w ibgp_asn (rib_update_id r)] /\
   find_entry p s (rib (snd (insertPriv sel slot s p attrib w ibgp_asn r)))
     = Some (learned_entry s p attrib w ibgp_asn (rib_update_id r))).
Proof.
  split; [|apply insertPriv_single].
  unfold insert.
  exact (insertPriv_single s p attrib w ibgp_asn
           {| rib := rib r; rib_update_id := (rib_update_id r + 1) mod 2 ^ 64 |}).
Qed.

Lemma filter_within {A : Type} (f g : A -> bool) (l : list A) :
  (forall x, f x = true -> g x = true) ->
  filter f (filter g l) = filter f l.
Proof.
  intros H. induction l as [|a l IH]; simpl; [reflexivity|].
  destruct (g a) eqn:G; simpl.
  - rewrite IH. reflexivity.
  - destruct (f a) eqn:F; [|exact IH]. rewrite (H a F) in G. discriminate.
Qed.

Lemma other_key_filter (s s' : Z) (p q : Prefix4) (l l' : rib4_t) :
  (q, s') <> (p, s) ->
  filter (fun x => negb (key_match s p x)) l'
    = filter (fun x => negb (key_match s p x)) l ->
  filter (key_match s' q) l' = filter (key_match s' q) l.
Proof.
  intros N H.
  assert (forall x, key_match s' q x = true -> negb (key_match s p x) = true) as I.
  { intros x K. apply negb_true_iff.
    destruct (key_match s p x) eqn:K'; [|reflexivity].
    apply key_match_iff in K. apply key_match_iff in K'.
    destruct K as [K1 K2], K' as [K3 K4]. exfalso. apply N. congruence. }
  rewrite <- (filter_within (key_match s' q) _ l' I), H.
  apply filter_within. exact I.
Qed.

(** X14.  The learned-route [insert] neither loses nor duplicates an entry
    of another prefix or another source: for every other (prefix, source)
    pair the map holds the same entries as before, and the best entry of
    every other prefix is what it was.  It advances the counter by one
    modulo 2^64; [insertPriv] leaves the counter alone. *)
Theorem insert_keeps_other_entries (s : Z) (p : Prefix4) (attrib : list BgpPathAttrib)
    (w ibgp_asn : Z) (r : BgpRib4) :
  (forall q s', (q, s') <> (p, s) ->
     filter (key_match s' q) (rib (snd (insert sel slot s p attrib w ibgp_asn r)))
     = filter (key_match s' q) (rib r)) /\
  (forall q s', (q, s') <> (p, s) ->
     filter (key_match s' q) (rib (snd (insertPriv sel slot s p attrib w ibgp_asn r)))
     = filter (key_match s' q) (rib r)) /\
  rib_update_id (snd (insert sel slot s p attrib w ibgp_asn r))
    = (rib_update_id r + 1) mod 2 ^ 64 /\
  rib_update_id (snd (insertPriv sel slot s p attrib w ibgp_asn r)) = rib_update_id r /\
  (forall q, q <> p ->
     find_best sel q (rib (snd (insert sel slot s p attrib w ibgp_asn r)))
     = find_best sel q (rib r)).
Proof.
  assert (filter (fun x => negb (key_match s p x))
            (rib (snd (insert sel slot s p attrib w ibgp_asn r)))
          = filter (fun x => negb (key_match s p x)) (rib r)) as H.
  { unfold insert.
    exact (insertPriv_others s p attrib w ibgp_asn
             {| rib := rib r; rib_update_id := (rib_update_id r + 1) mod 2 ^ 64 |}). }
  repeat apply conj.
  - intros q s' N. exact (other_key_filter s s' p q _ _ N H).
  - intros q s' N.
    exact (other_key_filter s s' p q _ _ N (insertPriv_others s p attrib w ibgp_asn r)).
  - unfold insert. rewrite insertPriv_state. reflexivity.
  - rewrite insertPriv_state. reflexivity.
  - intros q N.
    rewrite <- (find_best_other_prefix s p q _ N), H.
    apply find_best_other_prefix. exact N.
Qed.

Lemma insertPriv_keys (s : Z) (p : Prefix4) (attrib : list BgpPathAttrib)
    (w ibgp_asn : Z) (r : BgpRib4) :
  NoDup (keys (rib r)) ->
  NoDup (keys (rib (snd (insertPriv sel slot s p attrib w ibgp_asn r)))).
Proof.
  intros Hd. rewrite insertPriv_state. simpl.
  apply keys_insert_NoDup.
  - rewrite erase_same_peer_filter. apply NoDup_keys_filter. exact Hd.
  - simpl. intros C. apply key_in_keys in C. destruct C as [x [Hx Kx]].
    rewrite (erase_same_peer_no_match p s (rib r) x Hx) in Kx. discriminate.
Qed.

(** X15.  A map in which no two entries share prefix and source stays so
    under [insert], [insertPriv] and [withdraw]. *)
Theorem keys_stay_unique (s : Z) (p : Prefix4) (attrib : list BgpPathAttrib)
    (w ibgp_asn : Z) (r : BgpRib4) :
  NoDup (keys (rib r)) ->
  NoDup (keys (rib (snd (insert sel slot s p attrib w ibgp_asn r)))) /\
  NoDup (keys (rib (snd (insertPriv sel slot s p attrib w ibgp_asn r)))) /\
  NoDup (keys (rib (snd (withdraw sel s p r)))).
Proof.
  intros Hd. split; [|split].
  - unfold insert.
    exact (insertPriv_keys s p attrib w ibgp_asn
             {| rib := rib r; rib_update_id := (rib_update_id r + 1) mod 2 ^ 64 |} Hd).
  - apply insertPriv_keys. exact Hd.
  - destruct (withdraw_cases s p r) as [->|[l1 [e0 [l2 [rep [Hl [_ [_ [_ ->]]]]]]]]];
      [exact Hd|].
    simpl. rewrite Hl in Hd. unfold keys in *. rewrite map_app in *. simpl in Hd.
    exact (NoDup_remove_1 _ _ _ Hd).
Qed.

(** X16.  [withdraw] for a prefix and source that [find_entry] does not
    find returns [(false, nil)] and leaves the RIB as it was. *)
Theorem withdraw_missing_entry (s : Z) (p : Prefix4) (r : BgpRib4) :
  find_entry p s (rib r) = None ->
  withdraw sel s p r = ((false, None), r).
Proof.
  intros H. apply withdraw_absent. apply find_entry_none. exact H.
Qed.

(** X17.  [withdraw] never touches an entry of another prefix or another
    source and never adds one: the other entries stay in place and in
    order, at most one entry goes, the counter is unchanged and the best
    entry of every other prefix is what it was. *)
Theorem withdraw_keeps_other_entries (s : Z) (p : Prefix4) (r : BgpRib4) :
  filter (fun x => negb (key_match s p x)) (rib (snd (withdraw sel s p r)))
  = filter (fun x => negb (key_match s p x)) (rib r) /\
  rib_update_id (snd (withdraw sel s p r)) = rib_update_id r /\
  (forall x, In x (rib (snd (withdraw sel s p r))) -> In x (rib r)) /\
  (length (rib r) <= S (length (rib (snd (withdraw sel s p r)))))%nat /\
  (forall q, q <> p ->
     find_best sel q (rib (snd (withdraw sel s p r))) = find_best sel q (rib r)).
Proof.
  split; [apply withdraw_others|].
  split; [|split; [|split]].
  - destruct (withdraw_cases s p r) as [->|[l1 [e0 [l2 [rep [_ [_ [_ [_ ->]]]]]]]]];
      reflexivity.
  - destruct (withdraw_cases s p r) as [->|[l1 [e0 [l2 [rep [Hl [_ [_ [_ ->]]]]]]]]];
      [auto|].
    simpl. rewrite Hl. intros x Hx. apply in_app_or in Hx. apply in_or_app.
    destruct Hx as [Hx|Hx]; [left | right; right]; exact Hx.
  - destruct (withdraw_cases s p r) as [->|[l1 [e0 [l2 [rep [Hl [_ [_ [_ ->]]]]]]]]];
      [simpl; lia|].
    simpl. rewrite Hl, !length_app. simpl. lia.
  - intros q N.
    rewrite <- (find_best_other_prefix s p q _ N), withdraw_others.
    apply find_best_other_prefix. exact N.
Qed.

(** X18.  In a map without two entries of the same prefix and source, the
    replacement [withdraw] returns with [true] is the entry [find_best]
    finds for the prefix after the call. *)
Theorem withdraw_replacement_is_new_best (s : Z) (p : Prefix4) (r : BgpRib4)
    (rep : BgpRib4Entry) :
  NoDup (keys (rib r)) ->
  fst (withdraw sel s p r) = (true, Some rep) ->
  find_best sel p (rib (snd (withdraw sel s p r))) = Some rep.
Proof.
  intros Hd.
  destruct (withdraw_cases s p r) as [->|[l1 [e0 [l2 [rep0 [Hl [K [_ [Hrep ->]]]]]]]]];
    [discriminate|].
  simpl. intros E.
  assert (rep0 = rep) as <- by (destruct (negb (sel rep0 e0)); congruence).
  rewrite Hl in Hd, Hrep.
  unfold others in Hrep. rewrite filter_drop_middle in Hrep.
  - rewrite <- Hrep. unfold find_best. symmetry. apply find_best_filter.
    intros x Hx Hr. apply negb_true_iff.
    pose proof (unique_key_gone s p l1 l2 e0 Hd K x Hx) as Kx.
    unfold key_match in Kx. rewrite Hr, Prefix4_eqb_refl in Kx. exact Kx.
  - apply key_match_iff in K. destruct K as [_ ->]. rewrite Z.eqb_refl. reflexivity.
Qed.

(** X19.  In a map without two entries of the same prefix and source, a
    [withdraw] that returned [true] has erased the entry: repeating it
    returns [(false, nil)] and changes nothing. *)
Theorem withdraw_twice (s : Z) (p : Prefix4) (r : BgpRib4) :
  NoDup (keys (rib r)) ->
  fst (fst (withdraw sel s p r)) = true ->
  withdraw sel s p (snd (withdraw sel s p r))
    = ((false, None), snd (withdraw sel s p r)).
Proof.
  intros Hd.
  destruct (withdraw_cases s p r) as [->|[l1 [e0 [l2 [rep0 [Hl [K [_ [_ ->]]]]]]]]];
    [discriminate|].
  intros _. simpl. apply withdraw_absent. simpl.
  apply existsb_false_In. rewrite Hl in Hd.
  exact (unique_key_gone s p l1 l2 e0 Hd K).
Qed.

End WithPlacement.

(** *** The theorems at the sample states *)

Lemma rib_two_keys : NoDup (keys (rib rib_two)).
Proof.
  simpl. constructor; [intros [H|[]]; discriminate H|].
  constructor; [intros []|constructor].
Defined.

(** X15 at the sample state with two sources. *)
Lemma keys_stay_unique_witness :
  NoDup (keys (rib rib_two)) /\
  NoDup (keys (rib (snd (insert selectEntry slot_front 1 net10 [] 5 0 rib_two)))).
Proof.
  split; [exact rib_two_keys|].
  exact (proj1 (keys_stay_unique selectEntry slot_front 1 net10 [] 5 0 rib_two
                  rib_two_keys)).
Defined.

(** X16 at the sample state: peer 3 has no entry. *)
Lemma withdraw_missing_entry_witness :
  find_entry net10 3 (rib rib_two) = None /\
  withdraw selectEntry 3 net10 rib_two = ((false, None), rib_two).
Proof.
  split; [reflexivity|].
  exact (withdraw_missing_entry selectEntry 3 net10 rib_two eq_refl).
Defined.

(** X18 at the sample state: withdrawing the entry of peer 1 hands over to
    the entry of peer 2. *)
Lemma withdraw_replacement_is_new_best_witness :
  NoDup (keys (rib rib_two)) /\
  fst (withdraw selectEntry 1 net10 rib_two) = (true, Some from_peer2) /\
  find_best selectEntry net10 (rib (snd (withdraw selectEntry 1 net10 rib_two)))
    = Some from_peer2.
Proof.
  split; [exact rib_two_keys|]. split; [reflexivity|].
  exact (withdraw_replacement_is_new_best selectEntry 1 net10 rib_two from_peer2
           rib_two_keys eq_refl).
Defined.

(** X19 at the sample state. *)
Lemma withdraw_twice_witness :
  NoDup (keys (rib rib_two)) /\
  fst (fst (withdraw selectEntry 1 net10 rib_two)) = true /\
  withdraw selectEntry 1 net10 (snd (withdraw selectEntry 1 net10 rib_two))
    = ((false, None), snd (withdraw selectEntry 1 net10 rib_two)).
Proof.
  split; [exact rib_two_keys|]. split; [reflexivity|].
  exact (withdraw_twice selectEntry 1 net10 rib_two rib_two_keys eq_refl).
Defined.

Lemma counter_moves (c : Z) : (c + 1) mod 2 ^ 64 <> c.
Proof.
  intros E.
  assert (0 <= (c + 1) mod 2 ^ 64 < 2 ^ 64) as B by (apply Z.mod_pos_bound; lia).
  rewrite E in B.
  destruct (Z.eq_dec (c + 1) (2 ^ 64)) as [F|F].
  - rewrite F, Z.mod_same in E by lia. lia.
  - rewrite Z.mod_small in E by lia. lia.
Qed.

Section LocalRoutes.

Variable slot : rib4_t -> BgpRib4Entry -> nat.
Variable IGP : Z.
Variable dsrc : BgpRouteSource.
Variable dasn : Z.


Lemma scan_rejects (p : Prefix4) (nh : Z) (l : rib4_t) (u : Z) :
  insert_local_scan p nh l u = None <-> existsb (key_match 0 p) l = true.
Proof.
  revert u. induction l as [|e l IH]; intros u; simpl.
  - split; discriminate.
  - unfold key_match at 1. rewrite (andb_comm (Prefix4_eqb (route e) p)).
    destruct ((src_router_id e =? 0) && Prefix4_eqb (route e) p); simpl; [tauto|].
    destruct (src_router_id e =? 0); apply IH.
Qed.

Lemma scan_group (p : Prefix4) (nh : Z) (l : rib4_t) (u uid : Z) :
  insert_local_scan p nh l u = Some uid ->
  (existsb (local_with_nexthop nh) l = false /\ uid = u) \/
  (exists x, In x l /\ local_with_nexthop nh x = true /\ update_id x = uid).
Proof.
  revert u. induction l as [|e l IH]; intros u; simpl.
  - intros [= <-]. auto.
  - destruct ((src_router_id e =? 0) && Prefix4_eqb (route e) p); [discriminate|].
    unfold local_with_nexthop at 1.
    destruct (src_router_id e =? 0) eqn:E0; simpl.
    + destruct (has_nexthop nh (attribs e)) eqn:Hn; intros H;
        destruct (IH _ H) as [[H1 H2]|[x [H1 [H2 H3]]]].
      * right. exists e. unfold local_with_nexthop. rewrite E0, Hn. auto.
      * right. exists x. auto.
      * left. auto.
      * right. exists x. auto.
    + intros H. destruct (IH _ H) as [[H1 H2]|[x [H1 [H2 H3]]]]; [left; auto|].
      right. exists x. auto.
Qed.

Lemma scan_app (p : Prefix4) (nh : Z) (l1 l2 : rib4_t) (u : Z) :
  insert_local_scan p nh (l1 ++ l2) u =
  match insert_local_scan p nh l1 u with
  | Some u1 => insert_local_scan p nh l2 u1
  | None => None
  end.
Proof.
  revert u. induction l1 as [|e l1 IH]; intros u; simpl; [reflexivity|].
  destruct ((src_router_id e =? 0) && Prefix4_eqb (route e) p); [reflexivity|].
  destruct (src_router_id e =? 0); apply IH.
Qed.

Lemma scan_plain (p : Prefix4) (nh : Z) (l : rib4_t) (u : Z) :
  existsb (key_match 0 p) l = false ->
  existsb (local_with_nexthop nh) l = false ->
  insert_local_scan p nh l u = Some u.
Proof.
  intros H1 H2. destruct (insert_local_scan p nh l u) as [uid|] eqn:E.
  - destruct (scan_group p nh l u uid E) as [[_ ->]|[x [Hx [Lx _]]]]; [reflexivity|].
    rewrite existsb_false_In in H2. rewrite (H2 x Hx) in Lx. discriminate.
  - apply scan_rejects in E. congruence.
Qed.

Lemma getNexthop_local (p : Prefix4) (nh uid w : Z) :
  getNexthop (local_entry IGP dsrc dasn p nh uid w) = Some nh.
Proof.
  unfold getNexthop, RibExt.local_entry, local_attribs. simpl. reflexivity.
Qed.

Lemma find_entry_insert_new (p : Prefix4) (s : Z) (l : rib4_t) (e : BgpRib4Entry) :
  find_entry p s l = None -> key_match s p e = true ->
  find_entry p s (rib_insert slot l e) = Some e.
Proof.
  intros N K. unfold rib_insert. rewrite find_entry_app.
  assert (find_entry p s (firstn (slot l e) l) = None) as N1.
  { apply find_entry_none, existsb_false_In. intros x Hx.
    apply find_entry_none in N. rewrite existsb_false_In in N.
    apply N. eapply In_firstn; eauto. }
  rewrite N1. cbn [find_entry].
  change (Prefix4_eqb (route e) p && (src_router_id e =? s)) with (key_match s p e).
  rewrite K. reflexivity.
Qed.

(** X20.  The one-route local [insert] returns nil and leaves the RIB as it
    was exactly when [find_entry] finds a local entry (source 0) of the
    route.  Otherwise it inserts and returns an entry of source 0 with
    ORIGIN, the given NEXT_HOP and an empty four-byte AS_PATH, whose
    [getNexthop] is the next hop given and which [find_entry] then finds;
    its [update_id] is the counter when no local entry has that next hop,
    and the [update_id] of such an entry otherwise; the counter advances
    only when the entry took its value. *)
Theorem insert_local_outcome (p : Prefix4) (nh w : Z) (r : BgpRib4) :
  match find_entry p 0 (rib r) with
  | Some _ => insert_local slot IGP dsrc dasn p nh w r = (None, r)
  | None =>
      exists uid,
        insert_local slot IGP dsrc dasn p nh w r =
          (Some (local_entry IGP dsrc dasn p nh uid w),
           {| rib := rib_insert slot (rib r) (local_entry IGP dsrc dasn p nh uid w);
              rib_update_id := if uid =? rib_update_id r
                               then (rib_update_id r + 1) mod 2 ^ 64
                               else rib_update_id r |}) /\
        getNexthop (local_entry IGP dsrc dasn p nh uid w) = Some nh /\
        find_entry p 0 (rib_insert slot (rib r) (local_entry IGP dsrc dasn p nh uid w))
          = Some (local_entry IGP dsrc dasn p nh uid w) /\
        ((existsb (local_with_nexthop nh) (rib r) = false /\ uid = rib_update_id r) \/
         (exists x, In x (rib r) /\ local_with_nexthop nh x = true /\
                    update_id x = uid))
  end.
Proof.
  unfold RibExt.insert_local.
  destruct (find_entry p 0 (rib r)) as [e|] eqn:F.
  - assert (insert_local_scan p nh (rib r) (rib_update_id r) = None) as N.
    { apply scan_rejects. destruct (existsb (key_match 0 p) (rib r)) eqn:E; [reflexivity|].
      apply find_entry_none in E. congruence. }
    rewrite N. reflexivity.
  - destruct (insert_local_scan p nh (rib r) (rib_update_id r)) as [uid|] eqn:S.
    + exists uid. split; [reflexivity|]. split; [apply getNexthop_local|]. split.
      * apply find_entry_insert_new; [exact F|].
        unfold key_match. simpl. rewrite Prefix4_eqb_refl. reflexivity.
      * exact (scan_group p nh (rib r) (rib_update_id r) uid S).
    + apply scan_rejects in S. apply find_entry_none in F. congruence.
Qed.


Lemma rib_insert_keeps (l : rib4_t) (e x : BgpRib4Entry) :
  In x l -> In x (rib_insert slot l e).
Proof.
  intros H. unfold rib_insert. rewrite <- (firstn_skipn (slot l e) l) in H.
  apply in_app_or in H. apply in_or_app.
  destruct H as [H|H]; [left | right; right]; exact H.
Qed.

Lemma rib_insert_length (l : rib4_t) (e : BgpRib4Entry) :
  length (rib_insert slot l e) = S (length l).
Proof.
  unfold rib_insert. rewrite length_app. simpl.
  rewrite length_firstn, length_skipn. lia.
Qed.

Lemma rib_insert_In_inv (l : rib4_t) (e x : BgpRib4Entry) :
  In x (rib_insert slot l e) -> x = e \/ In x l.
Proof.
  unfold rib_insert. intros H. apply in_app_or in H.
  destruct H as [H|[H|H]]; [right | left | right].
  - eapply In_firstn; eauto.
  - auto.
  - eapply In_skipn; eauto.
Qed.

(** X21.  Two local routes inserted one after the other with the same next
    hop, into a RIB with no local entry of either route or of that next
    hop, both succeed and share one [update_id], the counter's value
    before the first; the counter has advanced by one modulo 2^64. *)
Theorem insert_local_groups_by_nexthop (p1 p2 : Prefix4) (nh w1 w2 : Z) (r : BgpRib4) :
  p1 <> p2 ->
  find_entry p1 0 (rib r) = None ->
  find_entry p2 0 (rib r) = None ->
  existsb (local_with_nexthop nh) (rib r) = false ->
  exists e1 e2,
    fst (insert_local slot IGP dsrc dasn p1 nh w1 r) = Some e1 /\
    fst (insert_local slot IGP dsrc dasn p2 nh w2 (snd (insert_local slot IGP dsrc dasn p1 nh w1 r))) = Some e2 /\
    update_id e1 = rib_update_id r /\
    update_id e2 = rib_update_id r /\
    rib_update_id (snd (insert_local slot IGP dsrc dasn p2 nh w2 (snd (insert_local slot IGP dsrc dasn p1 nh w1 r))))
      = (rib_update_id r + 1) mod 2 ^ 64.
Proof.
  intros N F1 F2 G.
  apply find_entry_none in F1 as K1. apply find_entry_none in F2 as K2.
  set (c := rib_update_id r).
  set (e1 := local_entry IGP dsrc dasn p1 nh c w1).
  set (r1 := {| rib := rib_insert slot (rib r) e1;
                rib_update_id := (c + 1) mod 2 ^ 64 |}).
  assert (insert_local slot IGP dsrc dasn p1 nh w1 r = (Some e1, r1)) as E1.
  { unfold RibExt.insert_local.
    rewrite (scan_plain p1 nh (rib r) (rib_update_id r) K1 G).
    fold c. rewrite Z.eqb_refl. reflexivity. }
  assert (insert_local_scan p2 nh (rib r1) (rib_update_id r1) = Some c) as S2.
  { simpl. unfold rib_insert. rewrite scan_app.
    rewrite existsb_false_In in K2, G.
    rewrite scan_plain.
    - cbn [insert_local_scan].
      assert (Prefix4_eqb (route e1) p2 = false) as R.
      { destruct (Prefix4_eqb (route e1) p2) eqn:E; [|reflexivity].
        apply Prefix4_eqb_eq in E. simpl in E. contradiction. }
      rewrite R. simpl. rewrite Z.eqb_refl.
      apply scan_plain; apply existsb_false_In; intros x Hx;
        [apply K2 | apply G]; eapply In_skipn; eauto.
    - apply existsb_false_In. intros x Hx. apply K2. eapply In_firstn; eauto.
    - apply existsb_false_In. intros x Hx. apply G. eapply In_firstn; eauto. }
  exists e1, (local_entry IGP dsrc dasn p2 nh c w2).
  rewrite E1. simpl.
  unfold RibExt.insert_local. rewrite S2. simpl.
  repeat split.
  match goal with |- context [if ?b then _ else _] => destruct b eqn:E end;
    [|reflexivity].
  apply Z.eqb_eq in E. exfalso. exact (counter_moves c (eq_sym E)).
Qed.

Lemma loop_spec (routes : list Prefix4) (nh w uid : Z) :
  forall (l : rib4_t) (ins : list BgpRib4Entry),
  exists added,
    snd (insert_local_loop slot IGP dsrc dasn routes nh w uid l ins) = ins ++ added /\
    (forall e, In e added ->
       e = local_entry IGP dsrc dasn (route e) nh uid w /\ In (route e) routes /\
       find_entry (route e) 0 l = None /\
       In e (fst (insert_local_loop slot IGP dsrc dasn routes nh w uid l ins))) /\
    NoDup (map route added) /\
    (forall x, In x l -> In x (fst (insert_local_loop slot IGP dsrc dasn routes nh w uid l ins))) /\
    (forall x, In x (fst (insert_local_loop slot IGP dsrc dasn routes nh w uid l ins)) ->
       In x l \/ In x added) /\
    length (fst (insert_local_loop slot IGP dsrc dasn routes nh w uid l ins))
      = (length l + length added)%nat /\
    (forall q, In q routes ->
       existsb (key_match 0 q) (fst (insert_local_loop slot IGP dsrc dasn routes nh w uid l ins)) = true) /\
    (NoDup (keys l) -> NoDup (keys (fst (insert_local_loop slot IGP dsrc dasn routes nh w uid l ins)))).
Proof.
  induction routes as [|p rest IH]; intros l ins; simpl.
  - exists []. rewrite app_nil_r.
    repeat apply conj; auto; try (intros ? []); try constructor.
  - destruct (find_entry p 0 l) as [e0|] eqn:F.
    + destruct (IH l ins) as [added [A1 [A2 [A3 [A4 [A4' [A5 [A6 A7]]]]]]]].
      exists added. repeat apply conj; try assumption.
      * intros e He. destruct (A2 e He) as [B1 [B2 [B3 B4]]].
        repeat apply conj; auto.
      * intros q [<-|Hq]; [|apply A6; exact Hq].
        apply existsb_exists. destruct (find_entry_sound p 0 l e0 F) as [H1 H2].
        exists e0. split; [apply A4; exact H1 | exact H2].
    + set (e := local_entry IGP dsrc dasn p nh uid w).
      destruct (IH (rib_insert slot l e) (ins ++ [e]))
        as [added [A1 [A2 [A3 [A4 [A4' [A5 [A6 A7]]]]]]]].
      assert (key_match 0 p e = true) as Ke
        by (unfold key_match; simpl; rewrite Prefix4_eqb_refl; reflexivity).
      assert (forall x, In x added -> route x <> p) as Hfresh.
      { intros x Hx C. destruct (A2 x Hx) as [_ [_ [N _]]].
        rewrite C in N. rewrite (find_entry_insert_new p 0 l e F Ke) in N.
        discriminate. }
      exists (e :: added). repeat apply conj.
      * rewrite A1, <- app_assoc. reflexivity.
      * intros x [<-|Hx].
        -- repeat apply conj; [reflexivity | left; reflexivity | exact F |].
           apply A4. apply rib_insert_In.
        -- destruct (A2 x Hx) as [B1 [B2 [B3 B4]]].
           repeat apply conj; [exact B1 | right; exact B2 | | exact B4].
           apply find_entry_none. apply find_entry_none in B3.
           rewrite existsb_false_In in *. intros y Hy. apply B3.
           apply rib_insert_keeps. exact Hy.
      * simpl. constructor; [|exact A3].
        intros C. apply in_map_iff in C. destruct C as [x [Ex Hx]].
        exact (Hfresh x Hx Ex).
      * intros x Hx. apply A4. apply rib_insert_keeps. exact Hx.
      * intros x Hx. destruct (A4' x Hx) as [H|H]; [|right; right; exact H].
        apply rib_insert_In_inv in H. destruct H as [->|H]; [right; left | left]; auto.
      * rewrite A5, rib_insert_length. simpl. lia.
      * intros q [<-|Hq]; [|apply A6; exact Hq].
        apply existsb_exists. exists e. split; [|exact Ke].
        apply A4. apply rib_insert_In.
      * intros Hd. apply A7. apply keys_insert_NoDup; [exact Hd|].
        simpl. intros C. apply key_in_keys in C. destruct C as [x [Hx Kx]].
        apply find_entry_none in F. rewrite existsb_false_In in F.
        rewrite (F x Hx) in Kx. discriminate.
Qed.


Lemma insert_local_routes_unfold (routes : list Prefix4) (nh w : Z) (r : BgpRib4) :
  insert_local_routes slot IGP dsrc dasn routes nh w r =
  (snd (insert_local_loop slot IGP dsrc dasn routes nh w (rib_update_id r) (rib r) []),
   {| rib := fst (insert_local_loop slot IGP dsrc dasn routes nh w
                    (rib_update_id r) (rib r) []);
      rib_update_id := (rib_update_id r + 1) mod 2 ^ 64 |}).
Proof.
  unfold insert_local_routes.
  destruct (insert_local_loop slot IGP dsrc dasn routes nh w (rib_update_id r) (rib r) []);
    reflexivity.
Qed.

(** X22.  The many-routes local [insert] advances the counter by one modulo
    2^64 whatever it inserts.  Afterwards every route of the list has a
    local entry.  The entries it returns are exactly the ones it added:
    each is a local entry of a listed route that had none, stamped with the
    counter's old value, and is in the RIB; no route is returned twice,
    also when the list repeats it; and every earlier entry is still
    there. *)
Theorem insert_local_routes_outcome (routes : list Prefix4) (nh w : Z) (r : BgpRib4) :
  rib_update_id (snd (insert_local_routes slot IGP dsrc dasn routes nh w r))
    = (rib_update_id r + 1) mod 2 ^ 64 /\
  (forall q, In q routes ->
     exists e,
       find_entry q 0 (rib (snd (insert_local_routes slot IGP dsrc dasn routes nh w r)))
       = Some e) /\
  (forall e, In e (fst (insert_local_routes slot IGP dsrc dasn routes nh w r)) ->
     e = local_entry IGP dsrc dasn (route e) nh (rib_update_id r) w /\
     In (route e) routes /\
     find_entry (route e) 0 (rib r) = None /\
     In e (rib (snd (insert_local_routes slot IGP dsrc dasn routes nh w r)))) /\
  NoDup (map route (fst (insert_local_routes slot IGP dsrc dasn routes nh w r))) /\
  (forall x, In x (rib r) ->
     In x (rib (snd (insert_local_routes slot IGP dsrc dasn routes nh w r)))) /\
  (forall x, In x (rib (snd (insert_local_routes slot IGP dsrc dasn routes nh w r))) ->
     In x (rib r) \/ In x (fst (insert_local_routes slot IGP dsrc dasn routes nh w r))) /\
  length (rib (snd (insert_local_routes slot IGP dsrc dasn routes nh w r)))
    = (length (rib r)
       + length (fst (insert_local_routes slot IGP dsrc dasn routes nh w r)))%nat.
Proof.
  rewrite insert_local_routes_unfold. cbn [fst snd rib rib_update_id].
  destruct (loop_spec routes nh w (rib_update_id r) (rib r) [])
    as [added [A1 [A2 [A3 [A4 [A4' [A5 [A6 A7]]]]]]]].
  simpl in A1. rewrite A1.
  repeat apply conj; try assumption; try reflexivity.
  intros q Hq. specialize (A6 q Hq).
  destruct (find_entry q 0
              (fst (insert_local_loop slot IGP dsrc dasn routes nh w
                      (rib_update_id r) (rib r) []))) as [e|] eqn:F; [eauto|].
  apply find_entry_none in F. congruence.
Qed.

(** X23.  A map in which no two entries share prefix and source stays so
    under both local inserts. *)
Theorem local_keys_stay_unique (p : Prefix4) (routes : list Prefix4) (nh w : Z)
    (r : BgpRib4) :
  NoDup (keys (rib r)) ->
  NoDup (keys (rib (snd (insert_local slot IGP dsrc dasn p nh w r)))) /\
  NoDup (keys (rib (snd (insert_local_routes slot IGP dsrc dasn routes nh w r)))).
Proof.
  intros Hd. split.
  - unfold insert_local.
    destruct (insert_local_scan p nh (rib r) (rib_update_id r)) as [uid|] eqn:S;
      [|exact Hd].
    simpl. apply keys_insert_NoDup; [exact Hd|].
    simpl. intros C. apply key_in_keys in C. destruct C as [x [Hx Kx]].
    assert (insert_local_scan p nh (rib r) (rib_update_id r) = None) as N
      by (apply scan_rejects, existsb_exists; eauto).
    congruence.
  - rewrite insert_local_routes_unfold. cbn [snd rib].
    destruct (loop_spec routes nh w (rib_update_id r) (rib r) [])
      as [added [_ [_ [_ [_ [_ [_ [_ A7]]]]]]]].
    apply A7. exact Hd.
Qed.

End LocalRoutes.

(** X21 at the sample state: two local routes through next hop 5. *)
Lemma insert_local_groups_by_nexthop_witness :
  net192 <> net172 /\
  find_entry net192 0 (rib rib_two) = None /\
  find_entry net172 0 (rib rib_two) = None /\
  existsb (local_with_nexthop 5) (rib rib_two) = false /\
  exists e1 e2,
    fst (insert_local slot_front 0 SRC_EBGP 0 net192 5 0 rib_two) = Some e1 /\
    fst (insert_local slot_front 0 SRC_EBGP 0 net172 5 0
           (snd (insert_local slot_front 0 SRC_EBGP 0 net192 5 0 rib_two))) = Some e2 /\
    update_id e1 = rib_update_id rib_two /\
    update_id e2 = rib_update_id rib_two /\
    rib_update_id
      (snd (insert_local slot_front 0 SRC_EBGP 0 net172 5 0
              (snd (insert_local slot_front 0 SRC_EBGP 0 net192 5 0 rib_two))))
    = (rib_update_id rib_two + 1) mod 2 ^ 64.
Proof.
  assert (net192 <> net172) as N by discriminate.
  split; [exact N|]. split; [reflexivity|]. split; [reflexivity|].
  split; [reflexivity|].
  exact (insert_local_groups_by_nexthop slot_front 0 SRC_EBGP 0 net192 net172 5 0 0
           rib_two N eq_refl eq_refl eq_refl).
Defined.

(** X23 at the sample state. *)
Lemma local_keys_stay_unique_witness :
  NoDup (keys (rib rib_two)) /\
  NoDup (keys (rib (snd (insert_local_routes slot_front 0 SRC_EBGP 0
                           [net192; net172; net192] 5 0 rib_two)))).
Proof.
  split; [exact rib_two_keys|].
  exact (proj2 (local_keys_stay_unique slot_front 0 SRC_EBGP 0 net192
                  [net192; net172; net192] 5 0 rib_two rib_two_keys)).
Defined.

End RibProps.
